(** * Movies dataset dashboard: the filter / pivot / convert pipeline,
      the exchange-rate fetch and its cache.

    Shallow embedding of [streamlit_app.py].  The script is a linear
    pipeline: load the CSV, fetch the USD->EUR rate (cached, guarded by a
    try/except), read two widgets, filter the frame, pivot it, sort it,
    multiply it by the rate, render.

    The pandas operations the script calls ([isin], [between], boolean
    indexing, [pivot_table], [sort_values], scalar [*]) are written out
    as list functions over labelled rows.  The numeric type of the
    [gross] column depends on the CSV, which is data and not code, so the
    cell type and its arithmetic are section variables. *)

From Stdlib Require Import List ZArith Bool Lia String.
From Stdlib Require Import Sorting.Sorted Sorting.Permutation.
From Stdlib Require Import Structures.OrdersEx.
From Stdlib Require Import QArith.
Import ListNotations.

Local Open Scope string_scope.
Local Open Scope Z_scope.
Local Open Scope list_scope.

(* ================================================================== *)
(** ** Ordered labels

    pandas sorts group keys, index labels and column labels.  Years are
    compared as integers, genres as Python strings (code-point order,
    which for UTF-8 byte strings is byte order), and a (year, genre) key
    lexicographically. *)

Class LabelOrder (K : Type) : Type := { cmp : K -> K -> comparison }.

#[export] Instance Z_LabelOrder : LabelOrder Z := {| cmp := Z.compare |}.

#[export] Instance string_LabelOrder : LabelOrder string :=
  {| cmp := String_as_OT.compare |}.

Definition pair_cmp {A B} `{LabelOrder A} `{LabelOrder B} (x y : A * B) : comparison :=
  match cmp (fst x) (fst y) with
  | Eq => cmp (snd x) (snd y)
  | c => c
  end.

#[export] Instance pair_LabelOrder {A B} `{LabelOrder A} `{LabelOrder B}
  : LabelOrder (A * B) := {| cmp := pair_cmp |}.

(** What the sorting relies on: [cmp] is a strict total order. *)
Class LabelOrderLaws (K : Type) `{LabelOrder K} : Prop := {
  cmp_eq : forall a b : K, cmp a b = Eq <-> a = b;
  cmp_lt_trans : forall a b c : K, cmp a b = Lt -> cmp b c = Lt -> cmp a c = Lt;
  cmp_gt_lt : forall a b : K, cmp a b = Gt -> cmp b a = Lt
}.

Definition eqb_of_cmp {K} `{LabelOrder K} (a b : K) : bool :=
  match cmp a b with Eq => true | _ => false end.

(* ================================================================== *)
(** ** Sorted label lists and grouped sums

    [sorted_unique] is the sorted list of distinct labels that pandas
    builds for an index level; [group_add] is one step of a grouped sum:
    the accumulator of the row's group is created at zero in its sorted
    position if it is new, and the row's value is added to it. *)

Section SortedLabels.
Context {K : Type} `{LabelOrder K}.

Fixpoint insert_unique (k : K) (l : list K) : list K :=
  match l with
  | [] => [k]
  | k' :: rest =>
      match cmp k k' with
      | Eq => l
      | Lt => k :: l
      | Gt => k' :: insert_unique k rest
      end
  end.

Definition sorted_unique (l : list K) : list K :=
  fold_left (fun acc k => insert_unique k acc) l [].

(** Strictly below, in the order of the labels. *)
Definition lt_label (a b : K) : Prop := cmp a b = Lt.

Context {V : Type}.
Variable zero : V.
Variable add : V -> V -> V.

Fixpoint group_add (k : K) (v : V) (acc : list (K * V)) : list (K * V) :=
  match acc with
  | [] => [(k, add zero v)]
  | (k', s) :: rest =>
      match cmp k k' with
      | Eq => (k', add s v) :: rest
      | Lt => (k, add zero v) :: acc
      | Gt => (k', s) :: group_add k v rest
      end
  end.

Fixpoint assoc (k : K) (acc : list (K * V)) : option V :=
  match acc with
  | [] => None
  | (k', s) :: rest => if eqb_of_cmp k k' then Some s else assoc k rest
  end.

Definition or_zero (o : option V) : V :=
  match o with Some s => s | None => zero end.

(** The keys of an accumulator list are strictly increasing. *)
Definition keys_sorted (acc : list (K * V)) : Prop :=
  StronglySorted lt_label (map fst acc).
End SortedLabels.

(* ================================================================== *)
(** ** Data model

    One row of the CSV: [year], [genre], [gross].  A [DataFrame] is the
    pivoted matrix: column labels and, per row, the index label (a year)
    with one cell per column. *)

Record MovieGenreRecord (cell : Type) : Type := mkRecord {
  year : Z;
  genre : string;
  gross : cell
}.
Arguments mkRecord {cell} _ _ _.
Arguments year {cell} _.
Arguments genre {cell} _.
Arguments gross {cell} _.

Record DataFrame (A : Type) : Type := mkFrame {
  columns : list string;
  rows : list (Z * list A)
}.
Arguments mkFrame {A} _ _.
Arguments columns {A} _.
Arguments rows {A} _.

Definition index {A} (m : DataFrame A) : list Z := map fst (rows m).

Fixpoint position (g : string) (cols : list string) : option nat :=
  match cols with
  | [] => None
  | c :: rest =>
      if String.eqb c g then Some O
      else match position g rest with Some j => Some (S j) | None => None end
  end.

Definition find_row {A} (y : Z) (rs : list (Z * list A)) : option (Z * list A) :=
  find (fun r => fst r =? y) rs.

(** [frame_at m y g] is the cell at row label [y] and column label [g],
    [None] when either label is absent. *)
Definition frame_at {A} (m : DataFrame A) (y : Z) (g : string) : option A :=
  match find_row y (rows m) with
  | Some r =>
      match position g (columns m) with
      | Some j => nth_error (snd r) j
      | None => None
      end
  | None => None
  end.

(* ================================================================== *)
(** ** The pipeline (lines 55-60 of the script) *)

(** [Series.isin(values)] and [Series.between(left, right)] (inclusive on
    both sides), per element. *)
Definition isin (values : list string) (g : string) : bool :=
  existsb (String.eqb g) values.

Definition between (left right y : Z) : bool :=
  (left <=? y) && (y <=? right).

Fixpoint insert_desc {A} (r : Z * A) (l : list (Z * A)) : list (Z * A) :=
  match l with
  | [] => [r]
  | r' :: rest =>
      if fst r' <? fst r then r :: l else r' :: insert_desc r rest
  end.

(** The reordering that [sort_values(by="year", ascending=False)] does
    once it has resolved [by]: the rows by their index label, largest
    first.  The call itself, with its error, is [sort_values_desc]
    below. *)
Definition sort_rows_desc {A} (m : DataFrame A) : DataFrame A :=
  mkFrame (columns m) (fold_right insert_desc [] (rows m)).

(** [Series.unique()]: the distinct values in order of first appearance
    (line 47, the options of the genre multiselect). *)
Definition unique (l : list string) : list string :=
  fold_left (fun seen g => if isin seen g then seen else seen ++ [g]) l [].

Section Pipeline.
Variables cell rate conv : Type.
(** The zero of the column's numeric type: the start of every group sum
    and the value of [fill_value=0]. *)
Variable zero : cell.
Variable add : cell -> cell -> cell.
(** A cell times the exchange rate. *)
Variable mul : cell -> rate -> conv.

Definition key_of (r : MovieGenreRecord cell) : Z * string := (year r, genre r).

(** Line 55: the boolean mask and the rows it keeps, in order. *)
Definition mask (genres : list string) (years : Z * Z) (r : MovieGenreRecord cell) : bool :=
  isin genres (genre r) && between (fst years) (snd years) (year r).

Definition df_filtered (df : list (MovieGenreRecord cell))
    (genres : list string) (years : Z * Z) : list (MovieGenreRecord cell) :=
  filter (mask genres years) df.

(** The rows of one group, in dataset order. *)
Definition group_rows (k : Z * string) (df : list (MovieGenreRecord cell))
  : list (MovieGenreRecord cell) :=
  filter (fun r => eqb_of_cmp (key_of r) k) df.

(** [groupby(["year", "genre"]).sum()]: one accumulator per distinct
    key, keys sorted, rows added in the order they appear. *)
Definition groupby_sum (df : list (MovieGenreRecord cell)) : list ((Z * string) * cell) :=
  fold_left (fun acc r => group_add zero add (key_of r) (gross r) acc) df [].

(** Lines 56-58: [pivot_table(index="year", columns="genre",
    values="gross", aggfunc="sum", fill_value=0)].  Row labels are the
    distinct years of the grouped keys, column labels their distinct
    genres, both sorted; a combination without a group is filled. *)
Definition pivot_table (df : list (MovieGenreRecord cell)) : DataFrame cell :=
  let agged := groupby_sum df in
  let idx := sorted_unique (map (fun e => fst (fst e)) agged) in
  let cols := sorted_unique (map (fun e => snd (fst e)) agged) in
  mkFrame cols
    (map (fun y => (y, map (fun g => or_zero zero (assoc (y, g) agged)) cols)) idx).

(** Lines 56-59: the matrix that [df_reshaped] holds when line 59
    completes; [df_reshaped_result] below has the error of that line. *)
Definition df_reshaped (df : list (MovieGenreRecord cell))
    (genres : list string) (years : Z * Z) : DataFrame cell :=
  sort_rows_desc (pivot_table (df_filtered df genres years)).

(** Line 60: [df_reshaped * usd_to_eur_rate], cell by cell, labels kept. *)
Definition frame_mul (m : DataFrame cell) (r : rate) : DataFrame conv :=
  mkFrame (columns m)
    (map (fun row => (fst row, map (fun v => mul v r) (snd row))) (rows m)).

Definition df_reshaped_eur (df : list (MovieGenreRecord cell))
    (genres : list string) (years : Z * Z) (usd_to_eur_rate : rate) : DataFrame conv :=
  frame_mul (df_reshaped df genres years) usd_to_eur_rate.

(** The records a cell stands for, and their sum. *)
Definition matching (df : list (MovieGenreRecord cell))
    (genres : list string) (years : Z * Z) (y : Z) (g : string)
    : list (MovieGenreRecord cell) :=
  filter (fun r => String.eqb (genre r) g && isin genres (genre r)
                   && (year r =? y) && between (fst years) (snd years) (year r)) df.

Definition sum_gross (l : list (MovieGenreRecord cell)) : cell :=
  fold_left (fun s r => add s (gross r)) l zero.
End Pipeline.

Arguments key_of {cell} _.
Arguments mask {cell} _ _ _.
Arguments df_filtered {cell} _ _ _.
Arguments group_rows {cell} _ _.
Arguments groupby_sum {cell} _ _ _.
Arguments pivot_table {cell} _ _ _.
Arguments df_reshaped {cell} _ _ _ _ _.
Arguments frame_mul {cell rate conv} _ _ _.
Arguments df_reshaped_eur {cell rate conv} _ _ _ _ _ _ _.
Arguments matching {cell} _ _ _ _ _.
Arguments sum_gross {cell} _ _ _.

(* ================================================================== *)
(** ** The exchange-rate fetch (lines 26-42)

    Python exceptions are values; a computation either returns or raises
    one.  The classes are those the fetch can raise, each with its chain
    of base classes, so that an [except] clause matches subclasses as
    Python does. *)

Inductive exn_class : Type :=
  | Exception | OSError | URLError | HTTPError | TimeoutError
  | ConnectionResetError | LookupError | KeyError
  | ValueError | JSONDecodeError | UnicodeDecodeError
  | TypeError | ArithmeticError | OverflowError
  | HTTPException | IncompleteRead | RuntimeError | RecursionError
  | OtherError (name : string).   (* a class derived from none of the above
                                     but [Exception] *)

Definition exn_class_eqb (a b : exn_class) : bool :=
  match a, b with
  | Exception, Exception | OSError, OSError | URLError, URLError
  | HTTPError, HTTPError | TimeoutError, TimeoutError
  | ConnectionResetError, ConnectionResetError | LookupError, LookupError
  | KeyError, KeyError | ValueError, ValueError
  | JSONDecodeError, JSONDecodeError | UnicodeDecodeError, UnicodeDecodeError
  | TypeError, TypeError | ArithmeticError, ArithmeticError
  | OverflowError, OverflowError
  | HTTPException, HTTPException | IncompleteRead, IncompleteRead
  | RuntimeError, RuntimeError | RecursionError, RecursionError => true
  | OtherError a, OtherError b => String.eqb a b
  | _, _ => false
  end.

(** The class followed by its base classes. *)
Definition mro (e : exn_class) : list exn_class :=
  match e with
  | Exception => [Exception]
  | OSError => [OSError; Exception]
  | URLError => [URLError; OSError; Exception]
  | HTTPError => [HTTPError; URLError; OSError; Exception]
  | TimeoutError => [TimeoutError; OSError; Exception]
  | ConnectionResetError => [ConnectionResetError; OSError; Exception]
  | LookupError => [LookupError; Exception]
  | KeyError => [KeyError; LookupError; Exception]
  | ValueError => [ValueError; Exception]
  | JSONDecodeError => [JSONDecodeError; ValueError; Exception]
  | UnicodeDecodeError => [UnicodeDecodeError; ValueError; Exception]
  | TypeError => [TypeError; Exception]
  | ArithmeticError => [ArithmeticError; Exception]
  | OverflowError => [OverflowError; ArithmeticError; Exception]
  | HTTPException => [HTTPException; Exception]
  | IncompleteRead => [IncompleteRead; HTTPException; Exception]
  | RuntimeError => [RuntimeError; Exception]
  | RecursionError => [RecursionError; RuntimeError; Exception]
  | OtherError name => [OtherError name; Exception]
  end.

Definition issubclass (e c : exn_class) : bool := existsb (exn_class_eqb c) (mro e).

(** [except (c1, c2, ...)] catches an exception of class [e]. *)
Definition except_matches (classes : list exn_class) (e : exn_class) : bool :=
  existsb (issubclass e) classes.

Inductive result (A : Type) : Type :=
  | Ok (a : A)
  | Raise (e : exn_class).
Arguments Ok {A} _.
Arguments Raise {A} _.

Definition bind {A B} (m : result A) (k : A -> result B) : result B :=
  match m with
  | Ok a => k a
  | Raise e => Raise e
  end.

Notation "x <- m ;; k" := (bind m (fun x => k))
  (at level 61, m at next level, right associativity).

(** What [json.loads] can return.  [F] is the Python float. *)
#[warnings="-register-all"]
Inductive json (F : Type) : Type :=
  | JNull
  | JBool (b : bool)
  | JInt (z : Z)
  | JFloat (f : F)
  | JString (s : string)
  | JArray (l : list (json F))
  | JObject (members : list (string * json F)).
Arguments JNull {F}.
Arguments JBool {F} _.
Arguments JInt {F} _.
Arguments JFloat {F} _.
Arguments JString {F} _.
Arguments JArray {F} _.
Arguments JObject {F} _.

Fixpoint dict_get {A} (k : string) (members : list (string * A)) : option A :=
  match members with
  | [] => None
  | (k', v) :: rest => if String.eqb k' k then Some v else dict_get k rest
  end.

(** [v[k]] with a string key: a dict raises [KeyError] on a missing key;
    a list or a string wants an integer index, and the other values are
    not subscriptable: [TypeError]. *)
Definition getitem {F} (v : json F) (k : string) : result (json F) :=
  match v with
  | JObject members =>
      match dict_get k members with
      | Some x => Ok x
      | None => Raise KeyError
      end
  | _ => Raise TypeError
  end.

(** How one call of the undecorated function went on the network side:
    [urlopen(url, timeout=10)], then [response.read().decode("utf-8")],
    then [json.loads].  The named outcomes are the usual ones; [Raised]
    stands for every other exception these calls can raise, so the list
    is not closed. *)
Inductive exchange (F : Type) : Type :=
  | ConnectFailed                 (* no route, refused, DNS: [URLError] *)
  | ConnectTimedOut               (* timeout while connecting: [URLError] *)
  | HttpErrorStatus (code : Z)    (* 4xx / 5xx: [HTTPError] *)
  | ReadTimedOut                  (* timeout while reading: [TimeoutError] *)
  | RemoteDisconnected            (* peer closed before answering:
                                     a [ConnectionResetError], raised as is *)
  | BodyNotUtf8                   (* [decode] raises [UnicodeDecodeError] *)
  | BodyNotJson                   (* [json.loads] raises [JSONDecodeError] *)
  | BodyTruncated                 (* the body ends early: [read] raises
                                     [http.client.IncompleteRead] *)
  | BodyTooDeep                   (* nesting beyond the recursion limit:
                                     [json.loads] raises [RecursionError] *)
  | Raised (e : exn_class)        (* any other exception that [urlopen],
                                     [read], [decode] or [json.loads]
                                     raises, of class [e] *)
  | Body (payload : json F).
Arguments ConnectFailed {F}.
Arguments ConnectTimedOut {F}.
Arguments HttpErrorStatus {F} _.
Arguments ReadTimedOut {F}.
Arguments RemoteDisconnected {F}.
Arguments BodyNotUtf8 {F}.
Arguments BodyNotJson {F}.
Arguments BodyTruncated {F}.
Arguments BodyTooDeep {F}.
Arguments Raised {F} _.
Arguments Body {F} _.

Definition error_message : string :=
  "Could not load a live USD to EUR exchange rate. Please try again.".

(** The classes of the [except] clause on line 40. *)
Definition handled : list exn_class :=
  [URLError; TimeoutError; KeyError; ValueError; JSONDecodeError].

(** [ttl=60 * 60 * 12], in seconds. *)
Definition ttl : Z := 60 * 60 * 12.

Section Fetch.
Variable F : Type.
(** [float(n)] for an int ([None]: too large, [OverflowError]) and
    [float(s)] for a str ([None]: not a number, [ValueError]). *)
Variable float_of_int : Z -> option F.
Variable float_of_str : string -> option F.

Definition py_float (v : json F) : result F :=
  match v with
  | JFloat f => Ok f
  | JInt z =>
      match float_of_int z with Some f => Ok f | None => Raise OverflowError end
  | JBool b =>
      match float_of_int (if b then 1 else 0) with
      | Some f => Ok f
      | None => Raise OverflowError
      end
  | JString s =>
      match float_of_str s with Some f => Ok f | None => Raise ValueError end
  | JNull | JArray _ | JObject _ => Raise TypeError
  end.

(** Lines 29-32. *)
Definition read_payload (x : exchange F) : result (json F) :=
  match x with
  | ConnectFailed => Raise URLError
  | ConnectTimedOut => Raise URLError
  | HttpErrorStatus _ => Raise HTTPError
  | ReadTimedOut => Raise TimeoutError
  | RemoteDisconnected => Raise ConnectionResetError
  | BodyNotUtf8 => Raise UnicodeDecodeError
  | BodyNotJson => Raise JSONDecodeError
  | BodyTruncated => Raise IncompleteRead
  | BodyTooDeep => Raise RecursionError
  | Raised e => Raise e
  | Body payload => Ok payload
  end.

(** Lines 27-34, the function under the decorator. *)
Definition load_usd_to_eur_rate_body (x : exchange F) : result (F * json F) :=
  payload <- read_payload x ;;
  rates <- getitem payload "rates" ;;
  eur <- getitem rates "EUR" ;;
  rate <- py_float eur ;;
  date <- getitem payload "date" ;;
  Ok (rate, date).

(** [st.cache_data(ttl=...)]: the cache of a function without
    arguments holds at most one entry, the value and the time it was
    stored; an entry is served while the clock is before its expiry,
    otherwise the function runs; a raised exception stores nothing.
    [requests] counts the runs of the function, one network request
    each. *)
Record cache_entry : Type := mkEntry {
  cached_value : F * json F;
  stored_at : Z
}.

Record cache : Type := mkCache {
  entry : option cache_entry;
  requests : nat
}.

Definition fresh (now : Z) (e : cache_entry) : bool := now <? stored_at e + ttl.

Definition run_and_store (now : Z) (x : exchange F) (c : cache)
  : result (F * json F) * cache :=
  match load_usd_to_eur_rate_body x with
  | Ok v => (Ok v, mkCache (Some (mkEntry v now)) (S (requests c)))
  | Raise e => (Raise e, mkCache None (S (requests c)))
  end.

(** Line 26-27: the decorated function.  [now] is the clock at the call
    and [x] what the network would answer if asked. *)
Definition load_usd_to_eur_rate (now : Z) (x : exchange F) (c : cache)
  : result (F * json F) * cache :=
  match entry c with
  | Some e => if fresh now e then (Ok (cached_value e), c) else run_and_store now x c
  | None => run_and_store now x c
  end.

(** Lines 38-42: how the run goes on after the guarded call. *)
Inductive fetch_outcome : Type :=
  | Proceed (usd_to_eur_rate : F) (fx_date : json F)
  | ErrorAndStop (message : string)      (* [st.error(...)], [st.stop()] *)
  | Uncaught (e : exn_class).            (* the exception leaves the script *)

Definition guarded_fetch (now : Z) (x : exchange F) (c : cache) : fetch_outcome * cache :=
  match load_usd_to_eur_rate now x c with
  | (Ok (r, d), c') => (Proceed r d, c')
  | (Raise e, c') =>
      if except_matches handled e then (ErrorAndStop error_message, c')
      else (Uncaught e, c')
  end.
(** The script runs again on every interaction; each run calls the
    decorated function once.  [call_sequence] threads the cache through
    a list of calls, each with its clock and what the network would
    answer. *)
Fixpoint call_sequence (calls : list (Z * exchange F)) (c : cache)
  : list (result (F * json F)) * cache :=
  match calls with
  | [] => ([], c)
  | (now, x) :: rest =>
      let (r, c1) := load_usd_to_eur_rate now x c in
      let (rs, c2) := call_sequence rest c1 in
      (r :: rs, c2)
  end.
(** The invariant of the cache along a sequence of calls: the entry, if
    any, was stored at the time of one of the calls made so far and
    holds what the function returned for that call's network answer. *)
Definition entry_was_fetched (past : list (Z * exchange F)) (c : cache) : Prop :=
  forall e, entry c = Some e ->
    exists x, In (stored_at e, x) past /\ load_usd_to_eur_rate_body x = Ok (cached_value e).
End Fetch.

Arguments py_float {F} _ _ _.
Arguments read_payload {F} _.
Arguments load_usd_to_eur_rate_body {F} _ _ _.
Arguments mkEntry {F} _ _.
Arguments cached_value {F} _.
Arguments stored_at {F} _.
Arguments mkCache {F} _ _.
Arguments entry {F} _.
Arguments requests {F} _.
Arguments fresh {F} _ _.
Arguments run_and_store {F} _ _ _ _ _.
Arguments load_usd_to_eur_rate {F} _ _ _ _ _.
Arguments Proceed {F} _ _.
Arguments ErrorAndStop {F} _.
Arguments Uncaught {F} _.
Arguments guarded_fetch {F} _ _ _ _ _.
Arguments call_sequence {F} _ _ _ _.
Arguments entry_was_fetched {F} _ _ _ _.

(* ================================================================== *)
(** ** Line 59 with its error, and the pipeline as the script runs it

    [df_reshaped.sort_values(by="year", ...)] resolves ["year"] among the
    index levels and the column labels.  The index of the pivot is named
    [year]; when a column is labelled ["year"] too (a genre of that
    name passed the filter) the reference is ambiguous and pandas raises
    [ValueError].  Lines 55, 56-58 and 60 raise nothing of their own. *)

Definition sort_values_desc {A} (m : DataFrame A) : result (DataFrame A) :=
  if isin (columns m) "year" then Raise ValueError else Ok (sort_rows_desc m).

Section PipelineResult.
Variables cell rate conv : Type.
Variable zero : cell.
Variable add : cell -> cell -> cell.
Variable mul : cell -> rate -> conv.

(** Lines 55-59. *)
Definition df_reshaped_result (df : list (MovieGenreRecord cell))
    (genres : list string) (years : Z * Z) : result (DataFrame cell) :=
  sort_values_desc (pivot_table zero add (df_filtered df genres years)).

(** Lines 55-60. *)
Definition df_reshaped_eur_result (df : list (MovieGenreRecord cell))
    (genres : list string) (years : Z * Z) (usd_to_eur_rate : rate)
    : result (DataFrame conv) :=
  m <- df_reshaped_result df genres years ;;
  Ok (frame_mul mul m usd_to_eur_rate).
End PipelineResult.

Arguments df_reshaped_result {cell} _ _ _ _ _.
Arguments df_reshaped_eur_result {cell rate conv} _ _ _ _ _ _ _.

(** [restricted_to P l k]: [k] is [l] with exactly the elements that
    satisfy [P], in their order.  It names "the records that ..." of a
    statement without any test of the program. *)
Inductive restricted_to {A} (P : A -> Prop) : list A -> list A -> Prop :=
  | restricted_nil : restricted_to P [] []
  | restricted_keep (a : A) (l k : list A) :
      P a -> restricted_to P l k -> restricted_to P (a :: l) (a :: k)
  | restricted_skip (a : A) (l k : list A) :
      ~ P a -> restricted_to P l k -> restricted_to P (a :: l) k.

(** The default selection of the multiselect (line 48) and the default
    range of the slider (line 52). *)
Definition default_genres : list string :=
  ["Action"; "Adventure"; "Biography"; "Comedy"; "Drama"; "Horror"].

Definition default_years : Z * Z := (2000, 2016).

(* ================================================================== *)
(** ** The chart data (lines 71-73)

    [reset_index()] turns the index into a column [year], which it
    cannot insert when a column already has that label, and
    [pd.melt(..., id_vars="year", var_name="genre", value_name="gross")]
    refuses a [value_name] that is a column label; both raise
    [ValueError].  Otherwise the long frame has the columns [year],
    [genre] and [gross]: the value columns one after the other, left to
    right, each with its rows from top to bottom. *)

Definition enumerate {A} (l : list A) : list (nat * A) :=
  combine (seq 0 (List.length l)) l.

Definition melt_column {A} (rs : list (Z * list A)) (jg : nat * string)
  : list (MovieGenreRecord A) :=
  flat_map (fun row =>
              match nth_error (snd row) (fst jg) with
              | Some v => [mkRecord (fst row) (snd jg) v]
              | None => []
              end) rs.

Definition melt {A} (m : DataFrame A) : list (MovieGenreRecord A) :=
  flat_map (melt_column (rows m)) (enumerate (columns m)).

Definition df_chart {A} (m : DataFrame A) : result (list (MovieGenreRecord A)) :=
  if isin (columns m) "year" || isin (columns m) "gross" then Raise ValueError
  else Ok (melt m).

(** A matrix has one cell per column in every row. *)
Definition rectangular {A} (m : DataFrame A) : Prop :=
  Forall (fun row => List.length (snd row) = List.length (columns m)) (rows m).

(** The sum of all cells of a matrix, row after row.  The script does
    not compute it; it states what the pivot does with the total. *)
Definition frame_total {A} (zero : A) (add : A -> A -> A) (m : DataFrame A) : A :=
  fold_left add (flat_map snd (rows m)) zero.

(* ================================================================== *)
(** ** The year slider (line 52) *)

Record slider_config : Type := mkSlider {
  min_value : Z;
  max_value : Z;
  value : Z * Z
}.

(** [st.slider("Years", 1986, 2006, (2000, 2016))]. *)
Definition years_slider : slider_config := mkSlider 1986 2006 (2000, 2016).

Definition within_bounds (s : slider_config) : bool :=
  (min_value s <=? fst (value s)) && (snd (value s) <=? max_value s).

(* ================================================================== *)
(** ** The script state (lines 55-60 as statements)

    Data frames are objects on a heap and the script's variables hold
    references to them.  Every pandas call of lines 55-60 returns a new
    object (none is called with [inplace=True]); an assignment rebinds
    the variable.  A statement that reads an unbound variable, or one
    that holds an object of the wrong kind, raises, and so does line 59
    on a matrix with a column labelled ["year"]: [None]. *)

Inductive pyobj (cell conv : Type) : Type :=
  | ORecords (df : list (MovieGenreRecord cell))   (* the frame of CSV rows *)
  | OFrame (m : DataFrame cell)                    (* a year x genre matrix *)
  | OFrameEur (m : DataFrame conv).                (* a converted matrix *)
Arguments ORecords {cell conv} _.
Arguments OFrame {cell conv} _.
Arguments OFrameEur {cell conv} _.

Record env (rate : Type) : Type := mkEnv {
  v_df : option nat;
  v_usd_to_eur_rate : option rate;
  v_genres : option (list string);
  v_years : option (Z * Z);
  v_df_filtered : option nat;
  v_df_reshaped : option nat;
  v_df_reshaped_eur : option nat
}.
Arguments mkEnv {rate} _ _ _ _ _ _ _.
Arguments v_df {rate} _.
Arguments v_usd_to_eur_rate {rate} _.
Arguments v_genres {rate} _.
Arguments v_years {rate} _.
Arguments v_df_filtered {rate} _.
Arguments v_df_reshaped {rate} _.
Arguments v_df_reshaped_eur {rate} _.

Record state (cell rate conv : Type) : Type := mkState {
  heap : list (pyobj cell conv);
  vars : env rate
}.
Arguments mkState {cell rate conv} _ _.
Arguments heap {cell rate conv} _.
Arguments vars {cell rate conv} _.

Definition obind {A B} (m : option A) (k : A -> option B) : option B :=
  match m with
  | Some a => k a
  | None => None
  end.

Notation "x <-? m ;; k" := (obind m (fun x => k))
  (at level 61, m at next level, right associativity).

Section Script.
Variables cell rate conv : Type.
Variable zero : cell.
Variable add : cell -> cell -> cell.
Variable mul : cell -> rate -> conv.

Local Abbreviation st := (state cell rate conv).

Definition deref (s : st) (v : option nat) : option (pyobj cell conv) :=
  l <-? v ;; nth_error (heap s) l.

Definition as_records (o : pyobj cell conv) : option (list (MovieGenreRecord cell)) :=
  match o with ORecords df => Some df | _ => None end.

Definition as_frame (o : pyobj cell conv) : option (DataFrame cell) :=
  match o with OFrame m => Some m | _ => None end.

Definition as_frame_eur (o : pyobj cell conv) : option (DataFrame conv) :=
  match o with OFrameEur m => Some m | _ => None end.

(** A new object goes to the end of the heap; its reference is the old
    length. *)
Definition alloc (s : st) (o : pyobj cell conv) : nat * list (pyobj cell conv) :=
  (List.length (heap s), heap s ++ [o]).

Definition set_df_filtered (e : env rate) (l : nat) : env rate :=
  mkEnv (v_df e) (v_usd_to_eur_rate e) (v_genres e) (v_years e)
        (Some l) (v_df_reshaped e) (v_df_reshaped_eur e).

Definition set_df_reshaped (e : env rate) (l : nat) : env rate :=
  mkEnv (v_df e) (v_usd_to_eur_rate e) (v_genres e) (v_years e)
        (v_df_filtered e) (Some l) (v_df_reshaped_eur e).

Definition set_df_reshaped_eur (e : env rate) (l : nat) : env rate :=
  mkEnv (v_df e) (v_usd_to_eur_rate e) (v_genres e) (v_years e)
        (v_df_filtered e) (v_df_reshaped e) (Some l).

(** Line 55. *)
Definition stmt_filter (s : st) : option st :=
  o <-? deref s (v_df (vars s)) ;;
  df <-? as_records o ;;
  genres <-? v_genres (vars s) ;;
  years <-? v_years (vars s) ;;
  let (l, h) := alloc s (ORecords (df_filtered df genres years)) in
  Some (mkState h (set_df_filtered (vars s) l)).

(** Lines 56-58. *)
Definition stmt_pivot (s : st) : option st :=
  o <-? deref s (v_df_filtered (vars s)) ;;
  df <-? as_records o ;;
  let (l, h) := alloc s (OFrame (pivot_table zero add df)) in
  Some (mkState h (set_df_reshaped (vars s) l)).

(** Line 59. *)
Definition stmt_sort (s : st) : option st :=
  o <-? deref s (v_df_reshaped (vars s)) ;;
  m <-? as_frame o ;;
  match sort_values_desc m with
  | Ok sorted =>
      let (l, h) := alloc s (OFrame sorted) in
      Some (mkState h (set_df_reshaped (vars s) l))
  | Raise _ => None
  end.

(** Line 60. *)
Definition stmt_convert (s : st) : option st :=
  o <-? deref s (v_df_reshaped (vars s)) ;;
  m <-? as_frame o ;;
  r <-? v_usd_to_eur_rate (vars s) ;;
  let (l, h) := alloc s (OFrameEur (frame_mul mul m r)) in
  Some (mkState h (set_df_reshaped_eur (vars s) l)).

(** Lines 55-60. *)
Definition run_pipeline (s : st) : option st :=
  s1 <-? stmt_filter s ;;
  s2 <-? stmt_pivot s1 ;;
  s3 <-? stmt_sort s2 ;;
  stmt_convert s3.

(** The matrix that [df_reshaped_eur] refers to. *)
Definition converted_matrix (s : st) : option (DataFrame conv) :=
  o <-? deref s (v_df_reshaped_eur (vars s)) ;; as_frame_eur o.

(** The inputs of the pipeline as a state holds them. *)
Definition inputs_are (s : st) (df : list (MovieGenreRecord cell))
    (genres : list string) (years : Z * Z) (r : rate) : Prop :=
  (o <-? deref s (v_df (vars s)) ;; as_records o) = Some df /\
  v_genres (vars s) = Some genres /\
  v_years (vars s) = Some years /\
  v_usd_to_eur_rate (vars s) = Some r.
End Script.

Arguments deref {cell rate conv} _ _.
Arguments as_records {cell conv} _.
Arguments as_frame {cell conv} _.
Arguments as_frame_eur {cell conv} _.
Arguments alloc {cell rate conv} _ _.
Arguments set_df_filtered {rate} _ _.
Arguments set_df_reshaped {rate} _ _.
Arguments set_df_reshaped_eur {rate} _ _.
Arguments stmt_filter {cell rate conv} _.
Arguments stmt_pivot {cell rate conv} _ _ _.
Arguments stmt_sort {cell rate conv} _.
Arguments stmt_convert {cell rate conv} _ _.
Arguments run_pipeline {cell rate conv} _ _ _ _.
Arguments converted_matrix {cell rate conv} _.
Arguments inputs_are {cell rate conv} _ _ _ _ _.

(* ================================================================== *)
(** ** Example data

    The scenario of the specification: two records of 2005, the rate
    0.90 as of 2024-01-01, the genres Drama and Comedy and the years
    2000 to 2010.  Gross amounts are integers and the rate a rational. *)

Definition eur_of (usd : Z) (r : Q) : Q := Qred (inject_Z usd * r).

Definition scenario_df : list (MovieGenreRecord Z) :=
  [mkRecord 2005 "Drama" 100; mkRecord 2005 "Comedy" 50].

Definition scenario_genres : list string := ["Drama"; "Comedy"].

Definition scenario_years : Z * Z := (2000, 2010).

Definition scenario_rate : Q := 9 # 10.

(** A dataset in which the selected genre Comedy has no record. *)
Definition drama_only_df : list (MovieGenreRecord Z) :=
  [mkRecord 2005 "Drama" 100].

(** An answer of the rate service whose rate is JSON [null]. *)
Definition null_rate_payload {F} : json F :=
  JObject [("rates", JObject [("EUR", JNull)]); ("date", JString "2024-01-01")].

(** A well-formed answer. *)
Definition good_payload : json Q :=
  JObject [("rates", JObject [("EUR", JFloat (9 # 10))]); ("date", JString "2024-01-01")].

Definition Q_of_int (z : Z) : option Q := Some (inject_Z z).

(** Only what the examples need of [float(str)]. *)
Definition Q_of_str (s : string) : option Q :=
  if String.eqb s "0.9" then Some (9 # 10) else None.

Definition empty_cache {F} : cache F := mkCache None 0.

(** A state at line 55 of the scenario: the CSV frame is the only object. *)
Definition scenario_state : state Z Q Q :=
  mkState [ORecords scenario_df]
    (mkEnv (Some 0%nat) (Some scenario_rate) (Some scenario_genres)
           (Some scenario_years) None None None).

(** A state at line 60 of the scenario: the sorted matrix is object 0. *)
Definition scenario_reshaped : DataFrame Z :=
  df_reshaped 0 Z.add scenario_df scenario_genres scenario_years.

Definition scenario_state_60 : state Z Q Q :=
  mkState [OFrame scenario_reshaped]
    (mkEnv None (Some scenario_rate) (Some scenario_genres)
           (Some scenario_years) None (Some 0%nat) None).

(** The converted matrix of the scenario. *)
Definition scenario_converted : DataFrame Q :=
  mkFrame ["Comedy"; "Drama"] [(2005, [Qmake 45 1; Qmake 90 1])].

(** Three years, out of order, with a repeated (year, genre) pair, a
    combination without a record and a record outside the range. *)
Definition mixed_df : list (MovieGenreRecord Z) :=
  [mkRecord 2003 "Drama" 7; mkRecord 2005 "Drama" 100; mkRecord 2005 "Comedy" 50;
   mkRecord 2004 "Comedy" 3; mkRecord 2005 "Drama" 1; mkRecord 1990 "Horror" 9].

(** A dataset that offers the six default genres, with its only Comedy
    record before the default year range: what the first render of the
    page works on. *)
Definition first_render_df : list (MovieGenreRecord Z) :=
  [mkRecord 2005 "Action" 10; mkRecord 2005 "Adventure" 20;
   mkRecord 2005 "Biography" 30; mkRecord 1990 "Comedy" 40;
   mkRecord 2005 "Drama" 50; mkRecord 2005 "Horror" 60].

(* ================================================================== *)
(** * Properties *)

(** ** The label orders are strict total orders *)

Lemma cmp_refl {K} `{LabelOrderLaws K} (a : K) : cmp a a = Eq.
Proof. apply cmp_eq; reflexivity. Qed.

Lemma cmp_lt_neq {K} `{LabelOrderLaws K} (a b : K) : cmp a b = Lt -> a <> b.
Proof. intros Hlt ->. rewrite cmp_refl in Hlt. discriminate. Qed.

Lemma Z_cmp_lt_trans (a b c : Z) :
  Z.compare a b = Lt -> Z.compare b c = Lt -> Z.compare a c = Lt.
Proof. rewrite !Z.compare_lt_iff. lia. Qed.

Lemma Z_cmp_gt_lt (a b : Z) : Z.compare a b = Gt -> Z.compare b a = Lt.
Proof. rewrite Z.compare_gt_iff, Z.compare_lt_iff. lia. Qed.

#[export] Instance Z_LabelOrderLaws : LabelOrderLaws Z.
Proof.
  split; simpl.
  - exact Z.compare_eq_iff.
  - exact Z_cmp_lt_trans.
  - exact Z_cmp_gt_lt.
Qed.

Lemma string_lt_irrefl (a : string) : ~ String_as_OT.lt a a.
Proof. apply (StrictOrder_Irreflexive (R:=String_as_OT.lt)). Qed.

Lemma string_cmp_eq (a b : string) : String_as_OT.compare a b = Eq <-> a = b.
Proof.
  destruct (String_as_OT.compare_spec a b) as [E|L|L]; split; intro X;
    try discriminate; try assumption; try reflexivity; subst;
    exfalso; eapply string_lt_irrefl; eassumption.
Qed.

Lemma string_cmp_lt_trans (a b c : string) :
  String_as_OT.compare a b = Lt -> String_as_OT.compare b c = Lt ->
  String_as_OT.compare a c = Lt.
Proof. apply (StrictOrder_Transitive (R:=String_as_OT.lt)). Qed.

Lemma string_cmp_gt_lt (a b : string) :
  String_as_OT.compare a b = Gt -> String_as_OT.compare b a = Lt.
Proof.
  intro G.
  destruct (String_as_OT.compare_spec b a) as [E|L|L].
  - subst. pose proof (proj2 (string_cmp_eq a a) eq_refl). congruence.
  - reflexivity.
  - unfold String_as_OT.lt in L. congruence.
Qed.

#[export] Instance string_LabelOrderLaws : LabelOrderLaws string.
Proof.
  split; simpl.
  - exact string_cmp_eq.
  - exact string_cmp_lt_trans.
  - exact string_cmp_gt_lt.
Qed.

Section PairOrder.
Context {A B : Type} `{LabelOrderLaws A} `{LabelOrderLaws B}.

Lemma pair_cmp_eq (x y : A * B) : pair_cmp x y = Eq <-> x = y.
Proof.
  destruct x as [a1 b1], y as [a2 b2]. unfold pair_cmp; simpl. split.
  - destruct (cmp a1 a2) eqn:E1; try discriminate.
    intro E2. apply cmp_eq in E1. apply cmp_eq in E2. congruence.
  - intro X. inversion X; subst. rewrite !cmp_refl. reflexivity.
Qed.

Lemma pair_cmp_lt_trans (x y z : A * B) :
  pair_cmp x y = Lt -> pair_cmp y z = Lt -> pair_cmp x z = Lt.
Proof.
  destruct x as [a1 b1], y as [a2 b2], z as [a3 b3]. unfold pair_cmp; simpl.
  destruct (cmp a1 a2) eqn:E1; try discriminate;
    destruct (cmp a2 a3) eqn:E2; try discriminate.
  - apply cmp_eq in E1. apply cmp_eq in E2. subst. rewrite cmp_refl.
    apply cmp_lt_trans.
  - apply cmp_eq in E1. subst. rewrite E2. reflexivity.
  - apply cmp_eq in E2. subst. rewrite E1. reflexivity.
  - rewrite (cmp_lt_trans _ _ _ E1 E2). reflexivity.
Qed.

Lemma pair_cmp_gt_lt (x y : A * B) : pair_cmp x y = Gt -> pair_cmp y x = Lt.
Proof.
  destruct x as [a1 b1], y as [a2 b2]. unfold pair_cmp; simpl.
  destruct (cmp a1 a2) eqn:E1; try discriminate.
  - apply cmp_eq in E1. subst. rewrite cmp_refl. apply cmp_gt_lt.
  - intros _. rewrite (cmp_gt_lt _ _ E1). reflexivity.
Qed.

#[export] Instance pair_LabelOrderLaws : LabelOrderLaws (A * B).
Proof.
  split; simpl.
  - exact pair_cmp_eq.
  - exact pair_cmp_lt_trans.
  - exact pair_cmp_gt_lt.
Qed.
End PairOrder.

Lemma eqb_of_cmp_true {K} `{LabelOrderLaws K} (a b : K) : eqb_of_cmp a b = true <-> a = b.
Proof.
  unfold eqb_of_cmp. rewrite <- cmp_eq. destruct (cmp a b); split; congruence.
Qed.

Lemma eqb_of_cmp_false {K} `{LabelOrderLaws K} (a b : K) : eqb_of_cmp a b = false <-> a <> b.
Proof.
  rewrite <- eqb_of_cmp_true. destruct (eqb_of_cmp a b); split; congruence.
Qed.

(** ** Sorted labels and grouped sums *)

Section SortedLabelsFacts.
Context {K : Type} `{LabelOrderLaws K}.

Lemma In_insert_unique (x k : K) (l : list K) :
  In x (insert_unique k l) <-> x = k \/ In x l.
Proof.
  induction l as [|k' rest IH]; simpl.
  - intuition congruence.
  - destruct (cmp k k') eqn:E; simpl.
    + apply cmp_eq in E. subst. intuition congruence.
    + intuition congruence.
    + rewrite IH. intuition congruence.
Qed.

Lemma In_fold_insert_unique (x : K) (l acc : list K) :
  In x (fold_left (fun acc k => insert_unique k acc) l acc) <-> In x l \/ In x acc.
Proof.
  revert acc. induction l as [|k l IH]; intro acc; simpl.
  - intuition.
  - rewrite IH, In_insert_unique. intuition congruence.
Qed.

Lemma In_sorted_unique (x : K) (l : list K) : In x (sorted_unique l) <-> In x l.
Proof.
  unfold sorted_unique. rewrite In_fold_insert_unique. simpl. intuition.
Qed.

Lemma insert_unique_sorted (k : K) (l : list K) :
  StronglySorted lt_label l -> StronglySorted lt_label (insert_unique k l).
Proof.
  induction l as [|k' rest IH]; intro S; simpl.
  - repeat constructor.
  - inversion S as [|? ? Srest Hall]; subst.
    destruct (cmp k k') eqn:E.
    + assumption.
    + constructor; [assumption|]. constructor; [exact E|].
      eapply Forall_impl; [|exact Hall]. intros z Hz.
      eapply cmp_lt_trans; eassumption.
    + constructor; [apply IH; assumption|].
      apply Forall_forall. intros z Hz. apply In_insert_unique in Hz.
      destruct Hz as [->|Hz].
      * apply cmp_gt_lt. assumption.
      * rewrite Forall_forall in Hall. apply Hall. assumption.
Qed.

Lemma sorted_unique_sorted (l : list K) : StronglySorted lt_label (sorted_unique l).
Proof.
  unfold sorted_unique.
  assert (G : forall acc, StronglySorted lt_label acc ->
            StronglySorted lt_label (fold_left (fun acc k => insert_unique k acc) l acc)).
  { induction l as [|k l IH]; intros acc S; simpl; [assumption|].
    apply IH. apply insert_unique_sorted. assumption. }
  apply G. constructor.
Qed.

Lemma sorted_NoDup (l : list K) : StronglySorted lt_label l -> NoDup l.
Proof.
  induction 1 as [|a l S IH Hall]; constructor; [|assumption].
  intro Hin. rewrite Forall_forall in Hall.
  apply (cmp_lt_neq a a); [apply Hall; assumption | reflexivity].
Qed.

Lemma sorted_unique_NoDup (l : list K) : NoDup (sorted_unique l).
Proof. apply sorted_NoDup, sorted_unique_sorted. Qed.

(** Grouped accumulation. *)
Context {V : Type}.
Variable zero : V.
Variable add : V -> V -> V.

Lemma In_keys_group_add (x k : K) (v : V) (acc : list (K * V)) :
  In x (map fst (group_add zero add k v acc)) <-> x = k \/ In x (map fst acc).
Proof.
  induction acc as [|[k' s] rest IH]; simpl.
  - intuition congruence.
  - destruct (cmp k k') eqn:E; simpl.
    + apply cmp_eq in E. subst. intuition congruence.
    + intuition congruence.
    + rewrite IH. intuition congruence.
Qed.

Lemma group_add_sorted (k : K) (v : V) (acc : list (K * V)) :
  keys_sorted acc -> keys_sorted (group_add zero add k v acc).
Proof.
  unfold keys_sorted.
  induction acc as [|[k' s] rest IH]; intro S; simpl.
  - repeat constructor.
  - simpl in S. inversion S as [|? ? Srest Hall]; subst.
    destruct (cmp k k') eqn:E; simpl.
    + constructor; assumption.
    + constructor; [assumption|]. constructor; [exact E|].
      eapply Forall_impl; [|exact Hall]. intros z Hz.
      eapply cmp_lt_trans; eassumption.
    + constructor; [apply IH; assumption|].
      apply Forall_forall. intros z Hz. apply In_keys_group_add in Hz.
      destruct Hz as [->|Hz].
      * apply cmp_gt_lt. assumption.
      * rewrite Forall_forall in Hall. apply Hall. assumption.
Qed.

Lemma assoc_None_notin (k : K) (acc : list (K * V)) :
  ~ In k (map fst acc) -> assoc k acc = None.
Proof.
  induction acc as [|[k' s] rest IH]; simpl; intro N; [reflexivity|].
  destruct (eqb_of_cmp k k') eqn:E.
  - apply eqb_of_cmp_true in E. subst. exfalso. apply N. left. reflexivity.
  - apply IH. intro X. apply N. right. assumption.
Qed.

Lemma assoc_group_add (k k0 : K) (v : V) (acc : list (K * V)) :
  keys_sorted acc ->
  assoc k (group_add zero add k0 v acc) =
    if eqb_of_cmp k k0 then Some (add (or_zero zero (assoc k acc)) v) else assoc k acc.
Proof.
  unfold keys_sorted.
  induction acc as [|[k' s] rest IH]; intro S; simpl.
  - destruct (eqb_of_cmp k k0); reflexivity.
  - simpl in S. inversion S as [|? ? Srest Hall]; subst.
    destruct (cmp k0 k') eqn:E; simpl.
    + apply cmp_eq in E. subst k'.
      destruct (eqb_of_cmp k k0); reflexivity.
    + destruct (eqb_of_cmp k k0) eqn:E0; [|reflexivity].
      apply eqb_of_cmp_true in E0. subst k0.
      assert (N : eqb_of_cmp k k' = false).
      { apply eqb_of_cmp_false. apply cmp_lt_neq. assumption. }
      rewrite N. rewrite assoc_None_notin; [reflexivity|].
      intro Hin. rewrite Forall_forall in Hall.
      apply (cmp_lt_neq k k); [|reflexivity].
      eapply cmp_lt_trans; [exact E|]. apply Hall. assumption.
    + rewrite IH by assumption.
      destruct (eqb_of_cmp k k0) eqn:E0; [|reflexivity].
      apply eqb_of_cmp_true in E0. subst k0.
      assert (N : eqb_of_cmp k k' = false).
      { apply eqb_of_cmp_false. intros ->. rewrite cmp_refl in E. discriminate. }
      rewrite N. reflexivity.
Qed.
End SortedLabelsFacts.

(* ================================================================== *)
(** ** Facts about frames, independent of the cell arithmetic *)

Lemma position_Some (g : string) (cols : list string) :
  In g cols -> exists j, position g cols = Some j /\ nth_error cols j = Some g.
Proof.
  induction cols as [|c rest IH]; simpl; [tauto|].
  intros [->|Hin].
  - rewrite String.eqb_refl. exists O. split; reflexivity.
  - destruct (String.eqb c g) eqn:E.
    + apply String.eqb_eq in E. subst. exists O. split; reflexivity.
    + destruct (IH Hin) as [j [Hp Hn]]. rewrite Hp.
      exists (S j). split; [reflexivity | exact Hn].
Qed.

Lemma position_In (g : string) (cols : list string) (j : nat) :
  position g cols = Some j -> In g cols.
Proof.
  revert j. induction cols as [|c rest IH]; simpl; intros j Hp; [discriminate|].
  destruct (String.eqb c g) eqn:E.
  - apply String.eqb_eq in E. left. assumption.
  - destruct (position g rest) eqn:P; [|discriminate]. right. eapply IH. reflexivity.
Qed.

Lemma find_row_In {A} (y : Z) (rs : list (Z * list A)) (r : Z * list A) :
  find_row y rs = Some r -> In r rs /\ fst r = y.
Proof.
  unfold find_row. intro F. apply find_some in F. destruct F as [Hin E].
  split; [assumption | apply Z.eqb_eq; assumption].
Qed.

Lemma find_row_NoDup {A} (rs : list (Z * list A)) (r : Z * list A) :
  NoDup (map fst rs) -> In r rs -> find_row (fst r) rs = Some r.
Proof.
  unfold find_row.
  induction rs as [|r' rest IH]; simpl; intros ND Hin; [contradiction|].
  inversion ND as [|? ? Hnot ND']; subst.
  destruct Hin as [->|Hin].
  - rewrite Z.eqb_refl. reflexivity.
  - destruct (fst r' =? fst r) eqn:E.
    + apply Z.eqb_eq in E. exfalso. apply Hnot. rewrite E.
      apply in_map. assumption.
    + apply IH; assumption.
Qed.

Lemma find_row_Permutation {A} (y : Z) (l l' : list (Z * list A)) :
  NoDup (map fst l) -> Permutation l l' -> find_row y l' = find_row y l.
Proof.
  intros ND P.
  assert (ND' : NoDup (map fst l')).
  { eapply Permutation_NoDup; [apply Permutation_map; exact P | exact ND]. }
  destruct (find_row y l) as [r|] eqn:F.
  - apply find_row_In in F. destruct F as [Hin <-].
    apply find_row_NoDup; [assumption|].
    eapply Permutation_in; eassumption.
  - destruct (find_row y l') as [r|] eqn:F'; [|reflexivity].
    apply find_row_In in F'. destruct F' as [Hin <-].
    apply Permutation_sym in P.
    rewrite (find_row_NoDup l r ND (Permutation_in _ P Hin)) in F. discriminate.
Qed.

Lemma insert_desc_Permutation {A} (r : Z * A) (l : list (Z * A)) :
  Permutation (r :: l) (insert_desc r l).
Proof.
  induction l as [|r' rest IH]; simpl; [apply Permutation_refl|].
  destruct (fst r' <? fst r).
  - apply Permutation_refl.
  - eapply Permutation_trans; [apply perm_swap|]. apply perm_skip. exact IH.
Qed.

Lemma sort_rows_desc_Permutation {A} (m : DataFrame A) :
  Permutation (rows m) (rows (sort_rows_desc m)).
Proof.
  unfold sort_rows_desc; simpl.
  induction (rows m) as [|r rest IH]; simpl; [constructor|].
  eapply Permutation_trans; [|apply insert_desc_Permutation].
  apply perm_skip. exact IH.
Qed.

Lemma frame_at_sort_rows_desc {A} (m : DataFrame A) (y : Z) (g : string) :
  NoDup (index m) -> frame_at (sort_rows_desc m) y g = frame_at m y g.
Proof.
  intro ND. unfold frame_at.
  rewrite (find_row_Permutation y (rows m) (rows (sort_rows_desc m)) ND
             (sort_rows_desc_Permutation m)).
  reflexivity.
Qed.

Lemma In_index_sort_rows_desc {A} (m : DataFrame A) (y : Z) :
  In y (index (sort_rows_desc m)) <-> In y (index m).
Proof.
  unfold index. split; apply Permutation_in; apply Permutation_map;
    [apply Permutation_sym|]; apply sort_rows_desc_Permutation.
Qed.

Lemma frame_at_labels {A} (m : DataFrame A) (y : Z) (g : string) (v : A) :
  frame_at m y g = Some v -> In y (index m) /\ In g (columns m).
Proof.
  unfold frame_at. destruct (find_row y (rows m)) as [r|] eqn:F; [|discriminate].
  destruct (position g (columns m)) as [j|] eqn:P; [|discriminate].
  intros _. apply find_row_In in F. destruct F as [Hin <-]. split.
  - unfold index. apply in_map. assumption.
  - eapply position_In. eassumption.
Qed.

Lemma find_row_build {A} (f : Z -> list A) (y : Z) (idx : list Z) :
  In y idx -> find_row y (map (fun y' => (y', f y')) idx) = Some (y, f y).
Proof.
  unfold find_row. induction idx as [|y' rest IH]; simpl; [tauto|].
  intros [->|Hin].
  - rewrite Z.eqb_refl. reflexivity.
  - destruct (y' =? y) eqn:E.
    + apply Z.eqb_eq in E. subst. reflexivity.
    + apply IH. assumption.
Qed.

Lemma filter_filter {A} (p q : A -> bool) (l : list A) :
  filter p (filter q l) = filter (fun x => p x && q x) l.
Proof.
  induction l as [|x l IH]; simpl; [reflexivity|].
  destruct (q x); simpl.
  - rewrite andb_true_r. destruct (p x); rewrite IH; reflexivity.
  - rewrite andb_false_r. exact IH.
Qed.

Lemma isin_In (values : list string) (g : string) :
  isin values g = true <-> In g values.
Proof.
  unfold isin. rewrite existsb_exists. split.
  - intros [x [Hin E]]. apply String.eqb_eq in E. subst. assumption.
  - intro Hin. exists g. split; [assumption | apply String.eqb_refl].
Qed.

Lemma between_spec (lo hi y : Z) : between lo hi y = true <-> lo <= y <= hi.
Proof. unfold between. rewrite andb_true_iff, !Z.leb_le. tauto. Qed.

Lemma key_eqb_split (y1 y2 : Z) (g1 g2 : string) :
  eqb_of_cmp (y1, g1) (y2, g2) = (y1 =? y2) && String.eqb g1 g2.
Proof.
  destruct (eqb_of_cmp (y1, g1) (y2, g2)) eqn:E.
  - apply eqb_of_cmp_true in E. inversion E; subst.
    rewrite Z.eqb_refl, String.eqb_refl. reflexivity.
  - apply eqb_of_cmp_false in E. symmetry. apply andb_false_iff.
    destruct (y1 =? y2) eqn:E1; [|left; reflexivity].
    destruct (String.eqb g1 g2) eqn:E2; [|right; reflexivity].
    apply Z.eqb_eq in E1. apply String.eqb_eq in E2. subst.
    exfalso. apply E. reflexivity.
Qed.

(* ================================================================== *)
(** ** Grouped sums and the pivot *)

Section PipelineFacts.
Variable cell : Type.
Variable zero : cell.
Variable add : cell -> cell -> cell.

Local Abbreviation gsum := (groupby_sum zero add).
Local Abbreviation pivot := (pivot_table zero add).
Local Abbreviation total := (sum_gross zero add).

Lemma groupby_sum_snoc (df : list (MovieGenreRecord cell)) (r : MovieGenreRecord cell) :
  gsum (df ++ [r]) = group_add zero add (key_of r) (gross r) (gsum df).
Proof. unfold groupby_sum. rewrite fold_left_app. reflexivity. Qed.

Lemma groupby_sum_sorted (df : list (MovieGenreRecord cell)) : keys_sorted (gsum df).
Proof.
  induction df as [|r df IH] using rev_ind.
  - constructor.
  - rewrite groupby_sum_snoc. apply group_add_sorted. exact IH.
Qed.

Lemma groupby_sum_keys (k : Z * string) (df : list (MovieGenreRecord cell)) :
  In k (map fst (gsum df)) <-> In k (map key_of df).
Proof.
  induction df as [|r df IH] using rev_ind.
  - simpl. tauto.
  - rewrite groupby_sum_snoc, In_keys_group_add, map_app, in_app_iff, IH.
    simpl. intuition congruence.
Qed.

Lemma sum_gross_snoc (l : list (MovieGenreRecord cell)) (r : MovieGenreRecord cell) :
  total (l ++ [r]) = add (total l) (gross r).
Proof. unfold sum_gross. rewrite fold_left_app. reflexivity. Qed.

(** A group's accumulator holds the sum of the group's rows. *)
Lemma assoc_groupby_sum (k : Z * string) (df : list (MovieGenreRecord cell)) :
  assoc k (gsum df) =
    match group_rows k df with
    | [] => None
    | l => Some (total l)
    end.
Proof.
  induction df as [|r df IH] using rev_ind.
  - reflexivity.
  - rewrite groupby_sum_snoc, assoc_group_add by apply groupby_sum_sorted.
    unfold group_rows in *. rewrite filter_app. simpl.
    destruct (eqb_of_cmp k (key_of r)) eqn:E.
    + apply eqb_of_cmp_true in E. subst k.
      assert (E' : eqb_of_cmp (key_of r) (key_of r) = true)
        by (apply eqb_of_cmp_true; reflexivity).
      rewrite E', IH.
      destruct (filter (fun r0 => eqb_of_cmp (key_of r0) (key_of r)) df) as [|a l] eqn:F.
      * reflexivity.
      * cbn [or_zero]. rewrite <- sum_gross_snoc. reflexivity.
    + assert (E' : eqb_of_cmp (key_of r) k = false).
      { apply eqb_of_cmp_false. apply eqb_of_cmp_false in E. congruence. }
      rewrite E', app_nil_r. exact IH.
Qed.

Lemma or_zero_assoc_groupby_sum (k : Z * string) (df : list (MovieGenreRecord cell)) :
  or_zero zero (assoc k (gsum df)) = total (group_rows k df).
Proof.
  rewrite assoc_groupby_sum. destruct (group_rows k df); reflexivity.
Qed.

Lemma index_pivot_table (df : list (MovieGenreRecord cell)) :
  index (pivot df) = sorted_unique (map (fun e => fst (fst e)) (gsum df)).
Proof.
  unfold index, pivot_table. simpl. rewrite map_map. simpl. apply map_id.
Qed.

Lemma In_index_pivot_table (y : Z) (df : list (MovieGenreRecord cell)) :
  In y (index (pivot df)) <-> In y (map year df).
Proof.
  rewrite index_pivot_table, In_sorted_unique, !in_map_iff. split.
  - intros [[k s] [<- Hin]]. simpl.
    assert (Hk : In k (map key_of df)).
    { apply groupby_sum_keys. apply in_map_iff. exists (k, s). split; [reflexivity|assumption]. }
    apply in_map_iff in Hk. destruct Hk as [r [<- Hr]]. exists r. split; [reflexivity|assumption].
  - intros [r [<- Hr]].
    assert (Hk : In (key_of r) (map fst (gsum df))).
    { apply groupby_sum_keys. apply in_map. assumption. }
    apply in_map_iff in Hk. destruct Hk as [[k s] [E Hin]]. simpl in E. subst k.
    exists (key_of r, s). split; [reflexivity|assumption].
Qed.

Lemma In_columns_pivot_table (g : string) (df : list (MovieGenreRecord cell)) :
  In g (columns (pivot df)) <-> In g (map genre df).
Proof.
  unfold pivot_table. simpl. rewrite In_sorted_unique, !in_map_iff. split.
  - intros [[k s] [<- Hin]]. simpl.
    assert (Hk : In k (map key_of df)).
    { apply groupby_sum_keys. apply in_map_iff. exists (k, s). split; [reflexivity|assumption]. }
    apply in_map_iff in Hk. destruct Hk as [r [<- Hr]]. exists r. split; [reflexivity|assumption].
  - intros [r [<- Hr]].
    assert (Hk : In (key_of r) (map fst (gsum df))).
    { apply groupby_sum_keys. apply in_map. assumption. }
    apply in_map_iff in Hk. destruct Hk as [[k s] [E Hin]]. simpl in E. subst k.
    exists (key_of r, s). split; [reflexivity|assumption].
Qed.

Lemma NoDup_index_pivot_table (df : list (MovieGenreRecord cell)) :
  NoDup (index (pivot df)).
Proof. rewrite index_pivot_table. apply sorted_unique_NoDup. Qed.

(** Every cell of the pivot, at a row label and a column label it has, is
    the sum of the rows of that group (zero for an empty group). *)
Lemma frame_at_pivot_table (df : list (MovieGenreRecord cell)) (y : Z) (g : string) :
  In y (index (pivot df)) -> In g (columns (pivot df)) ->
  frame_at (pivot df) y g = Some (total (group_rows (y, g) df)).
Proof.
  intros Hy Hg. rewrite index_pivot_table in Hy.
  unfold frame_at, pivot_table in *. simpl in *.
  rewrite (find_row_build _ y _ Hy). simpl.
  destruct (position_Some g _ Hg) as [j [Hp Hn]]. rewrite Hp.
  rewrite (map_nth_error _ _ _ Hn).
  rewrite or_zero_assoc_groupby_sum. reflexivity.
Qed.

Lemma group_rows_df_filtered (df : list (MovieGenreRecord cell))
    (genres : list string) (years : Z * Z) (y : Z) (g : string) :
  group_rows (y, g) (df_filtered df genres years) = matching df genres years y g.
Proof.
  unfold group_rows, df_filtered, matching. rewrite filter_filter.
  apply filter_ext. intro r. unfold key_of, mask. rewrite key_eqb_split.
  destruct (year r =? y), (String.eqb (genre r) g), (isin genres (genre r)),
    (between (fst years) (snd years) (year r)); reflexivity.
Qed.

Section Conversion.
Variables rate conv : Type.
Variable mul : cell -> rate -> conv.

Lemma frame_at_frame_mul (m : DataFrame cell) (r : rate) (y : Z) (g : string) :
  frame_at (frame_mul mul m r) y g = option_map (fun v => mul v r) (frame_at m y g).
Proof.
  unfold frame_at, frame_mul. simpl.
  assert (F : find_row y (map (fun row => (fst row, map (fun v => mul v r) (snd row))) (rows m))
              = option_map (fun row => (fst row, map (fun v => mul v r) (snd row)))
                  (find_row y (rows m))).
  { unfold find_row. induction (rows m) as [|row rest IH]; simpl; [reflexivity|].
    destruct (fst row =? y); [reflexivity | exact IH]. }
  rewrite F. destruct (find_row y (rows m)) as [row|]; simpl; [|reflexivity].
  destruct (position g (columns m)) as [j|]; [|reflexivity].
  rewrite nth_error_map. reflexivity.
Qed.

Lemma index_frame_mul (m : DataFrame cell) (r : rate) :
  index (frame_mul mul m r) = index m.
Proof. unfold index, frame_mul. simpl. rewrite map_map. reflexivity. Qed.

End Conversion.

End PipelineFacts.


(* ================================================================== *)
(** ** Line 59 and the pipeline with its error *)

Lemma sort_values_desc_Ok_iff {A} (m m' : DataFrame A) :
  sort_values_desc m = Ok m' <-> ~ In "year" (columns m) /\ m' = sort_rows_desc m.
Proof.
  unfold sort_values_desc. destruct (isin (columns m) "year") eqn:E.
  - apply isin_In in E. split; [discriminate | tauto].
  - split.
    + intro H. inversion H. split; [|reflexivity].
      intro Hin. apply isin_In in Hin. congruence.
    + intros [_ ->]. reflexivity.
Qed.

Lemma sort_values_desc_Raise {A} (m : DataFrame A) :
  In "year" (columns m) -> sort_values_desc m = Raise ValueError.
Proof.
  intro H. unfold sort_values_desc. rewrite (proj2 (isin_In _ _) H). reflexivity.
Qed.

Lemma restricted_to_filter {A} (P : A -> Prop) (pb : A -> bool) (l : list A) :
  (forall a, P a <-> pb a = true) -> restricted_to P l (filter pb l).
Proof.
  intro H. induction l as [|a l IH]; simpl; [constructor|].
  destruct (pb a) eqn:E.
  - apply restricted_keep; [apply H; exact E | exact IH].
  - apply restricted_skip; [|exact IH]. intro Pa. apply H in Pa. congruence.
Qed.

Lemma restricted_to_unique {A} (P : A -> Prop) (l k k' : list A) :
  restricted_to P l k -> restricted_to P l k' -> k = k'.
Proof.
  intro R. revert k'. induction R as [|a l k Pa R IH|a l k NPa R IH]; intros k' R'.
  - inversion R'. reflexivity.
  - inversion R' as [|? ? k0 ? R0|? ? ? N0 ?]; subst; [|contradiction].
    f_equal. apply IH. exact R0.
  - inversion R' as [|? ? ? P0 ?|? ? k0 ? R0]; subst; [contradiction|].
    apply IH. exact R0.
Qed.

Section CheckedPipeline.
Variable cell : Type.
Variable zero : cell.
Variable add : cell -> cell -> cell.

Lemma columns_pivot_filtered_selected (df : list (MovieGenreRecord cell))
    (genres : list string) (years : Z * Z) (g : string) :
  In g (columns (pivot_table zero add (df_filtered df genres years))) -> In g genres.
Proof.
  intro H. apply In_columns_pivot_table in H. apply in_map_iff in H.
  destruct H as [r [<- Hr]]. unfold df_filtered in Hr. apply filter_In in Hr.
  destruct Hr as [_ M]. unfold mask in M. apply andb_true_iff in M.
  apply isin_In. exact (proj1 M).
Qed.

Lemma df_reshaped_result_Ok_iff (df : list (MovieGenreRecord cell))
    (genres : list string) (years : Z * Z) (m : DataFrame cell) :
  df_reshaped_result zero add df genres years = Ok m <->
  ~ In "year" (columns (pivot_table zero add (df_filtered df genres years))) /\
  m = df_reshaped zero add df genres years.
Proof. unfold df_reshaped_result, df_reshaped. apply sort_values_desc_Ok_iff. Qed.

Lemma df_reshaped_result_selected (df : list (MovieGenreRecord cell))
    (genres : list string) (years : Z * Z) :
  ~ In "year" genres ->
  df_reshaped_result zero add df genres years = Ok (df_reshaped zero add df genres years).
Proof.
  intro H. apply df_reshaped_result_Ok_iff. split; [|reflexivity].
  intro Hin. apply H. eapply columns_pivot_filtered_selected. exact Hin.
Qed.

Section Converted.
Variables rate conv : Type.
Variable mul : cell -> rate -> conv.

Lemma df_reshaped_eur_result_Ok_iff (df : list (MovieGenreRecord cell))
    (genres : list string) (years : Z * Z) (r : rate) (m : DataFrame conv) :
  df_reshaped_eur_result zero add mul df genres years r = Ok m <->
  ~ In "year" (columns (pivot_table zero add (df_filtered df genres years))) /\
  m = df_reshaped_eur zero add mul df genres years r.
Proof.
  unfold df_reshaped_eur_result, df_reshaped_eur.
  destruct (df_reshaped_result zero add df genres years) as [m0|e] eqn:E; cbn [bind].
  - apply df_reshaped_result_Ok_iff in E. destruct E as [N ->]. split.
    + intro H. inversion H. split; [exact N | reflexivity].
    + intros [_ ->]. reflexivity.
  - split; [discriminate|]. intros [N _]. exfalso.
    assert (X : df_reshaped_result zero add df genres years
                = Ok (df_reshaped zero add df genres years))
      by (apply df_reshaped_result_Ok_iff; split; [exact N | reflexivity]).
    congruence.
Qed.

Lemma df_reshaped_eur_result_selected (df : list (MovieGenreRecord cell))
    (genres : list string) (years : Z * Z) (r : rate) :
  ~ In "year" genres ->
  df_reshaped_eur_result zero add mul df genres years r
  = Ok (df_reshaped_eur zero add mul df genres years r).
Proof.
  intro H. apply df_reshaped_eur_result_Ok_iff. split; [|reflexivity].
  intro Hin. apply H. eapply columns_pivot_filtered_selected. exact Hin.
Qed.
End Converted.
End CheckedPipeline.

(* ================================================================== *)
(** ** The claims about the filter / pivot / sort / convert pipeline *)

Lemma In_unique (g : string) (l : list string) : In g (unique l) <-> In g l.
Proof.
  unfold unique.
  assert (G : forall seen,
            In g (fold_left (fun seen g => if isin seen g then seen else seen ++ [g]) l seen)
            <-> In g seen \/ In g l).
  { induction l as [|x l IH]; intro seen; simpl; [tauto|].
    rewrite IH. destruct (isin seen x) eqn:E.
    - apply isin_In in E. intuition (subst; auto).
    - rewrite in_app_iff. simpl. intuition. }
  rewrite G. simpl. tauto.
Qed.

Lemma assoc_Some_In {K V} `{LabelOrderLaws K} (k : K) (acc : list (K * V)) (s : V) :
  assoc k acc = Some s -> In k (map fst acc).
Proof.
  induction acc as [|[k' s'] rest IH]; simpl; [discriminate|].
  destruct (eqb_of_cmp k k') eqn:E.
  - apply eqb_of_cmp_true in E. intros _. left. congruence.
  - intro X. right. apply IH. assumption.
Qed.

Section PipelineClaims.
Variable cell : Type.
Variable zero : cell.
Variable add : cell -> cell -> cell.

Local Abbreviation filtered := (@df_filtered cell).
Local Abbreviation pivot := (pivot_table zero add).
Local Abbreviation reshaped := (df_reshaped zero add).
Local Abbreviation total := (sum_gross zero add).

Lemma In_df_filtered (r : MovieGenreRecord cell) (df : list (MovieGenreRecord cell))
    (genres : list string) (years : Z * Z) :
  In r (filtered df genres years) <->
  In r df /\ In (genre r) genres /\ fst years <= year r <= snd years.
Proof.
  unfold df_filtered, mask. rewrite filter_In, andb_true_iff, isin_In, between_spec.
  tauto.
Qed.

Lemma frame_at_df_reshaped (df : list (MovieGenreRecord cell))
    (genres : list string) (years : Z * Z) (y : Z) (g : string) :
  In y (index (reshaped df genres years)) ->
  In g (columns (reshaped df genres years)) ->
  frame_at (reshaped df genres years) y g = Some (total (matching df genres years y g)).
Proof.
  unfold df_reshaped. intros Hy Hg.
  rewrite frame_at_sort_rows_desc by apply NoDup_index_pivot_table.
  rewrite In_index_sort_rows_desc in Hy.
  rewrite frame_at_pivot_table by assumption.
  rewrite group_rows_df_filtered. reflexivity.
Qed.

Lemma In_columns_df_reshaped (df : list (MovieGenreRecord cell))
    (genres : list string) (years : Z * Z) (g : string) :
  In g (columns (reshaped df genres years)) <->
  In g genres /\ exists r, In r df /\ genre r = g /\ fst years <= year r <= snd years.
Proof.
  unfold df_reshaped, sort_rows_desc. simpl.
  change (sorted_unique (map (fun e => snd (fst e))
            (groupby_sum zero add (filtered df genres years))))
    with (columns (pivot (filtered df genres years))).
  rewrite In_columns_pivot_table, in_map_iff. split.
  - intros [r [<- Hr]]. rewrite In_df_filtered in Hr. destruct Hr as [Hin [Hg Hy]].
    split; [assumption|]. exists r. repeat split; try assumption; apply Hy.
  - intros [Hg [r [Hin [<- Hy]]]]. exists r. split; [reflexivity|].
    apply In_df_filtered. repeat split; try assumption; apply Hy.
Qed.

(** C3, as the code has it.  The reshaped matrix has exactly one column
    for every selected genre that has at least one record within the
    year range; and at every row year and column genre of the matrix a
    cell is present, which is zero when no record matches that
    combination. *)
Theorem reshaped_columns_are_matched_genres
    (df : list (MovieGenreRecord cell)) (genres : list string) (years : Z * Z) :
  NoDup (columns (reshaped df genres years)) /\
  (forall g, In g (columns (reshaped df genres years)) <->
     In g genres /\
     exists r, In r df /\ genre r = g /\ fst years <= year r <= snd years) /\
  (forall y g, In y (index (reshaped df genres years)) ->
     In g (columns (reshaped df genres years)) ->
     exists v, frame_at (reshaped df genres years) y g = Some v /\
               (matching df genres years y g = [] -> v = zero)).
Proof.
  split; [|split].
  - unfold df_reshaped, sort_rows_desc, pivot_table. simpl. apply sorted_unique_NoDup.
  - intro g. apply In_columns_df_reshaped.
  - intros y g Hy Hg. eexists. split; [apply frame_at_df_reshaped; assumption|].
    intros ->. reflexivity.
Qed.

Section ConvertedClaims.
Variables rate conv : Type.
Variable mul : cell -> rate -> conv.

Local Abbreviation reshaped_eur := (df_reshaped_eur zero add mul).

(** C8.  Every year that labels a row lies within the selected inclusive
    range: among the filtered records, in the pivot, in the sorted
    matrix and in the converted matrix. *)
Theorem row_years_within_range
    (df : list (MovieGenreRecord cell)) (genres : list string) (years : Z * Z)
    (usd_to_eur_rate : rate) :
  let in_range := fun y => fst years <= y <= snd years in
  Forall in_range (map year (filtered df genres years)) /\
  Forall in_range (index (pivot (filtered df genres years))) /\
  Forall in_range (index (reshaped df genres years)) /\
  Forall in_range (index (reshaped_eur df genres years usd_to_eur_rate)).
Proof.
  intro in_range.
  assert (A : Forall in_range (map year (filtered df genres years))).
  { apply Forall_forall. intros y Hy. apply in_map_iff in Hy.
    destruct Hy as [r [<- Hr]]. rewrite In_df_filtered in Hr. unfold in_range. tauto. }
  assert (B : Forall in_range (index (pivot (filtered df genres years)))).
  { apply Forall_forall. intros y Hy. rewrite In_index_pivot_table in Hy.
    rewrite Forall_forall in A. apply A. assumption. }
  assert (C : Forall in_range (index (reshaped df genres years))).
  { apply Forall_forall. intros y Hy. unfold df_reshaped in Hy.
    rewrite In_index_sort_rows_desc in Hy. rewrite Forall_forall in B. apply B. assumption. }
  repeat split; try assumption.
  unfold df_reshaped_eur. rewrite index_frame_mul. exact C.
Qed.

End ConvertedClaims.

End PipelineClaims.

(* ================================================================== *)
(** ** The pipeline on examples *)

(** The scenario of the specification: row 2005 with Comedy 45 and
    Drama 90. *)
Example scenario_pipeline :
  df_reshaped_eur 0 Z.add eur_of scenario_df scenario_genres scenario_years scenario_rate
  = scenario_converted.
Proof. reflexivity. Qed.

(** Rows come out with the latest year first, columns in alphabetical
    order, repeated pairs are added up, a missing combination is 0 and
    the record of 1990 is filtered out together with its genre. *)
Example mixed_pipeline :
  df_reshaped 0 Z.add mixed_df ["Drama"; "Comedy"; "Horror"] (2000, 2010)
  = mkFrame ["Comedy"; "Drama"] [(2005, [50; 101]); (2004, [3; 0]); (2003, [0; 7])].
Proof. reflexivity. Qed.

Example mixed_groupby :
  groupby_sum 0 Z.add mixed_df
  = [((1990, "Horror"), 9); ((2003, "Drama"), 7); ((2004, "Comedy"), 3);
     ((2005, "Comedy"), 50); ((2005, "Drama"), 101)].
Proof. reflexivity. Qed.

Example unique_genres : unique (map genre mixed_df) = ["Drama"; "Comedy"; "Horror"].
Proof. reflexivity. Qed.

(* ================================================================== *)
(** ** An empty selection *)

Section EmptySelection.
Variable cell : Type.
Variable zero : cell.
Variable add : cell -> cell -> cell.

Lemma pivot_table_nil : pivot_table zero add [] = mkFrame [] [].
Proof. reflexivity. Qed.

(** No genre selected: nothing passes the filter and the matrix has no
    row and no column. *)
Lemma empty_genres_zero_rows (df : list (MovieGenreRecord cell)) (years : Z * Z) :
  df_reshaped zero add df [] years = mkFrame [] [].
Proof.
  unfold df_reshaped.
  assert (E : df_filtered df [] years = []).
  { unfold df_filtered. induction df as [|r df IH]; [reflexivity|]. simpl. exact IH. }
  rewrite E. reflexivity.
Qed.

(** A year range that no record of the dataset falls in. *)
Lemma no_year_overlap_zero_rows (df : list (MovieGenreRecord cell))
    (genres : list string) (years : Z * Z) :
  (forall r, In r df -> ~ fst years <= year r <= snd years) ->
  df_reshaped zero add df genres years = mkFrame [] [].
Proof.
  intro Hno. unfold df_reshaped.
  assert (E : df_filtered df genres years = []).
  { unfold df_filtered. induction df as [|r df IH]; [reflexivity|]. simpl.
    assert (B : between (fst years) (snd years) (year r) = false).
    { destruct (between (fst years) (snd years) (year r)) eqn:B; [|reflexivity].
      apply between_spec in B. exfalso. apply (Hno r); [left; reflexivity | exact B]. }
    unfold mask at 1. rewrite B, andb_false_r. apply IH.
    intros r' Hr'. apply Hno. right. assumption. }
  rewrite E. reflexivity.
Qed.
End EmptySelection.

(* ================================================================== *)
(** ** The exchange-rate fetch and its guard *)

Section FetchFacts.
Variable F : Type.
Variable float_of_int : Z -> option F.
Variable float_of_str : string -> option F.

Local Abbreviation body := (load_usd_to_eur_rate_body float_of_int float_of_str).
Local Abbreviation cached := (load_usd_to_eur_rate float_of_int float_of_str).
Local Abbreviation guarded := (guarded_fetch float_of_int float_of_str).

Lemma getitem_raises (v : json F) (k : string) (e : exn_class) :
  getitem v k = Raise e -> e = KeyError \/ e = TypeError.
Proof.
  destruct v; simpl; try (intro X; inversion X; subst; auto; fail).
  destruct (dict_get k members); intro X; inversion X; subst; auto.
Qed.

Lemma py_float_raises (v : json F) (e : exn_class) :
  py_float float_of_int float_of_str v = Raise e ->
  e = ValueError \/ e = TypeError \/ e = OverflowError.
Proof.
  destruct v; simpl; try (intro X; inversion X; subst; auto; fail).
  - destruct (float_of_int (if b then 1 else 0)); intro X; inversion X; subst; auto.
  - destruct (float_of_int z); intro X; inversion X; subst; auto.
  - destruct (float_of_str s); intro X; inversion X; subst; auto.
Qed.

(** The failures that the guard does turn into the one error message:
    a failed or timed-out connection, an HTTP error status, a timeout
    while reading, a body that is not UTF-8 or not JSON, an object
    without the key, a rate string that is not a number. *)
Lemma handled_failures (now : Z) (x : exchange F) (e : exn_class) :
  body x = Raise e ->
  In e [URLError; HTTPError; TimeoutError; UnicodeDecodeError; JSONDecodeError;
        KeyError; ValueError] ->
  fst (guarded now x (mkCache None 0)) = ErrorAndStop error_message.
Proof.
  intros B Hin.
  assert (M : except_matches handled e = true).
  { simpl in Hin. repeat (destruct Hin as [<-|Hin]; [reflexivity|]). contradiction. }
  unfold guarded_fetch, load_usd_to_eur_rate, run_and_store. cbn [entry].
  rewrite B, M. reflexivity.
Qed.

(** C2 fails on the code.  The service answers with a JSON object whose
    rate is [null]: [float(None)] raises [TypeError], which is not among
    the classes of the [except] clause, so the exception leaves the
    script instead of becoming the error message. *)
Theorem null_rate_escapes_the_guard (now : Z) :
  body (Body null_rate_payload) = Raise TypeError /\
  except_matches handled TypeError = false /\
  guarded now (Body null_rate_payload) empty_cache =
    (Uncaught TypeError, mkCache None 1).
Proof. repeat split. Qed.

(** A peer that closes the connection without answering is another
    failure that escapes. *)
Lemma remote_disconnect_escapes_the_guard (now : Z) :
  fst (guarded now RemoteDisconnected empty_cache) = Uncaught ConnectionResetError.
Proof. reflexivity. Qed.

Lemma run_and_store_requests (now : Z) (x : exchange F) (c : cache F) :
  requests (snd (run_and_store float_of_int float_of_str now x c)) = S (requests c).
Proof.
  unfold run_and_store. destruct (body x); reflexivity.
Qed.

(** C7.  After a call that returned a pair, the cache holds that pair
    in an entry.  Either the call was served from an entry already
    there and still within its window, with no request and the cache
    left as it was, or the call ran the function: one request, and the
    entry is stamped with the time of this call, so that its window is
    the twelve hours that start at the fetch.  Every further call
    before the end of that window returns the same pair and makes no
    request, whatever the network would answer; a call at or after the
    end of the window runs the function again: one more request. *)
Theorem cached_rate_window (now1 : Z) (x1 : exchange F) (c c1 : cache F)
    (v : F * json F) :
  cached now1 x1 c = (Ok v, c1) ->
  exists e,
    entry c1 = Some e /\ cached_value e = v /\
    ((entry c = Some e /\ c1 = c) \/
     (body x1 = Ok v /\ stored_at e = now1 /\ requests c1 = S (requests c) /\
      forall e0, entry c = Some e0 -> stored_at e0 + 12 * 60 * 60 <= now1)) /\
    now1 < stored_at e + 12 * 60 * 60 /\
    (requests c1 <= requests c + 1)%nat /\
    (forall now2 x2, now2 < stored_at e + 12 * 60 * 60 ->
       cached now2 x2 c1 = (Ok v, c1)) /\
    (forall now2 x2, stored_at e + 12 * 60 * 60 <= now2 ->
       cached now2 x2 c1 = run_and_store float_of_int float_of_str now2 x2 c1 /\
       requests (snd (cached now2 x2 c1)) = S (requests c1)).
Proof.
  intro H.
  assert (T : ttl = 12 * 60 * 60) by reflexivity.
  assert (Hit : forall e, entry c1 = Some e -> cached_value e = v ->
            (forall now2 x2, now2 < stored_at e + 12 * 60 * 60 ->
               cached now2 x2 c1 = (Ok v, c1)) /\
            (forall now2 x2, stored_at e + 12 * 60 * 60 <= now2 ->
               cached now2 x2 c1 = run_and_store float_of_int float_of_str now2 x2 c1 /\
               requests (snd (cached now2 x2 c1)) = S (requests c1))).
  { intros e He Hv. split; intros now2 x2 Hn; unfold load_usd_to_eur_rate, fresh;
      rewrite He, T.
    - destruct (Z.ltb_spec now2 (stored_at e + 12 * 60 * 60)); [|lia].
      rewrite Hv. reflexivity.
    - destruct (Z.ltb_spec now2 (stored_at e + 12 * 60 * 60)); [lia|].
      split; [reflexivity | apply run_and_store_requests]. }
  assert (Miss : run_and_store float_of_int float_of_str now1 x1 c = (Ok v, c1) ->
            exists e, entry c1 = Some e /\ cached_value e = v /\
              body x1 = Ok v /\ stored_at e = now1 /\ requests c1 = S (requests c)).
  { unfold run_and_store. destruct (body x1) as [v'|e'] eqn:B; intro X; inversion X; subst.
    eexists. split; [reflexivity|]. simpl. repeat split; reflexivity. }
  unfold load_usd_to_eur_rate in H. destruct (entry c) as [e0|] eqn:E0.
  - unfold fresh in H. rewrite T in H.
    destruct (Z.ltb_spec now1 (stored_at e0 + 12 * 60 * 60)) as [Hlt|Hge].
    + inversion H; subst v c1. exists e0.
      split; [exact E0|]. split; [reflexivity|].
      split; [left; split; [reflexivity | reflexivity]|].
      split; [exact Hlt|]. split; [lia|]. exact (Hit e0 E0 eq_refl).
    + destruct (Miss H) as [e [He [Hv [Hb [Hs Hr]]]]]. exists e.
      split; [exact He|]. split; [exact Hv|].
      split.
      { right. split; [exact Hb|]. split; [exact Hs|]. split; [exact Hr|].
        intros e1 E1. inversion E1; subst e1. exact Hge. }
      split; [lia|]. split; [lia|]. exact (Hit e He Hv).
  - destruct (Miss H) as [e [He [Hv [Hb [Hs Hr]]]]]. exists e.
    split; [exact He|]. split; [exact Hv|].
    split.
    { right. split; [exact Hb|]. split; [exact Hs|]. split; [exact Hr|].
      intros e1 E1. discriminate. }
    split; [lia|]. split; [lia|]. exact (Hit e He Hv).
Qed.
End FetchFacts.

(** C7 on an example: the first call, at second 100 on an empty cache,
    fetches 0.9; a call eleven hours later is served from the cache even
    though the service would now fail. *)
Lemma cached_rate_window_example :
  load_usd_to_eur_rate Q_of_int Q_of_str 100 (Body good_payload) empty_cache =
    (Ok (9 # 10, JString "2024-01-01"),
     mkCache (Some (mkEntry (9 # 10, JString "2024-01-01") 100)) 1) /\
  load_usd_to_eur_rate Q_of_int Q_of_str (100 + 11 * 3600) ConnectFailed
    (mkCache (Some (mkEntry (9 # 10, JString "2024-01-01") 100)) 1) =
    (Ok (9 # 10, JString "2024-01-01"),
     mkCache (Some (mkEntry (9 # 10, JString "2024-01-01") 100)) 1).
Proof.
  assert (H : load_usd_to_eur_rate Q_of_int Q_of_str 100 (Body good_payload) empty_cache =
                (Ok (9 # 10, JString "2024-01-01"),
                 mkCache (Some (mkEntry (9 # 10, JString "2024-01-01") 100)) 1))
    by reflexivity.
  split; [exact H|].
  destruct (cached_rate_window Q Q_of_int Q_of_str 100 (Body good_payload) empty_cache
              _ _ H) as [e [He [Hv [_ [Hn [Hr [Hhit Hmiss]]]]]]].
  apply Hhit. simpl in He. inversion He; subst. simpl. lia.
Defined.

(* ================================================================== *)
(** ** The year slider *)

(** C4.  The slider of line 52 is given the bounds 1986 and 2006 and the
    default range (2000, 2016); the upper end of the default, 2016, is
    above the upper bound, so the default is not within the bounds. *)
Theorem slider_default_exceeds_bounds :
  min_value years_slider = 1986 /\
  max_value years_slider = 2006 /\
  value years_slider = (2000, 2016) /\
  max_value years_slider < snd (value years_slider) /\
  within_bounds years_slider = false.
Proof. repeat split. Qed.

(* ================================================================== *)
(** ** The script state: allocation and frame *)

Section ScriptFacts.
Variables cell rate conv : Type.
Variable zero : cell.
Variable add : cell -> cell -> cell.
Variable mul : cell -> rate -> conv.

Local Abbreviation st := (state cell rate conv).
Local Abbreviation obj := (pyobj cell conv).

Lemma nth_error_alloc_new (h : list obj) (o : obj) :
  nth_error (h ++ [o]) (List.length h) = Some o.
Proof.
  rewrite nth_error_app2 by apply Nat.le_refl. rewrite Nat.sub_diag. reflexivity.
Qed.

Lemma nth_error_alloc_old (h : list obj) (o o' : obj) (k : nat) :
  nth_error h k = Some o' -> nth_error (h ++ [o]) k = Some o'.
Proof.
  intro H. rewrite nth_error_app1; [exact H|].
  apply nth_error_Some. rewrite H. discriminate.
Qed.

Lemma nth_error_bound (h : list obj) (o : obj) (k : nat) :
  nth_error h k = Some o -> List.length h <> k.
Proof.
  intros H E. subst k. assert (X : nth_error h (List.length h) = None).
  { apply nth_error_None. apply Nat.le_refl. }
  congruence.
Qed.

(** C9.  Line 60 at a state where [df_reshaped] refers to a matrix [m]
    and the rate is [r]: the statement runs, [df_reshaped_eur] refers to
    a new object, the matrix with the labels of [m] and every cell of
    [m] multiplied by [r], a function of [m] and [r] alone; [df_reshaped] still
    refers to the same object, which still is [m], and every object that
    was on the heap is unchanged. *)
Theorem convert_leaves_input_unchanged (s : st) (l : nat) (m : DataFrame cell) (r : rate) :
  v_df_reshaped (vars s) = Some l ->
  nth_error (heap s) l = Some (OFrame m) ->
  v_usd_to_eur_rate (vars s) = Some r ->
  exists s',
    stmt_convert mul s = Some s' /\
    v_df_reshaped_eur (vars s') = Some (List.length (heap s)) /\
    nth_error (heap s') (List.length (heap s)) = Some (OFrameEur (frame_mul mul m r)) /\
    List.length (heap s) <> l /\
    columns (frame_mul mul m r) = columns m /\
    index (frame_mul mul m r) = index m /\
    (forall y g, frame_at (frame_mul mul m r) y g
                 = option_map (fun v => mul v r) (frame_at m y g)) /\
    v_df_reshaped (vars s') = Some l /\
    nth_error (heap s') l = Some (OFrame m) /\
    (forall k o, nth_error (heap s) k = Some o -> nth_error (heap s') k = Some o).
Proof.
  intros Hv Hm Hr.
  exists (mkState (heap s ++ [OFrameEur (frame_mul mul m r)])
            (set_df_reshaped_eur (vars s) (List.length (heap s)))).
  split.
  { unfold stmt_convert, deref, obind. rewrite Hv, Hm, Hr. reflexivity. }
  cbn [heap vars set_df_reshaped_eur v_df_reshaped_eur v_df_reshaped].
  split; [reflexivity|].
  split; [apply nth_error_alloc_new|].
  split; [eapply nth_error_bound; eassumption|].
  split; [reflexivity|].
  split; [apply index_frame_mul|].
  split; [intros y g; apply frame_at_frame_mul|].
  split; [exact Hv|].
  split; [apply nth_error_alloc_old; exact Hm|].
  intros k o Hk. apply nth_error_alloc_old. exact Hk.
Qed.

End ScriptFacts.

(** C9 on the scenario: after line 60 the sorted matrix, object 0, is
    what it was, and the converted matrix is the new object 1. *)
Lemma convert_scenario :
  exists s',
    stmt_convert eur_of scenario_state_60 = Some s' /\
    nth_error (heap s') 0%nat = Some (OFrame scenario_reshaped) /\
    nth_error (heap s') 1%nat = Some (OFrameEur scenario_converted).
Proof.
  destruct (convert_leaves_input_unchanged Z Q Q eur_of scenario_state_60 0%nat
              scenario_reshaped scenario_rate eq_refl eq_refl eq_refl)
    as [s' [Hrun [_ [Hnew [_ [_ [_ [_ [_ [Hold _]]]]]]]]]].
  exists s'. split; [exact Hrun|]. split; [exact Hold|]. exact Hnew.
Defined.


(* ================================================================== *)
(** * Further properties of the pipeline *)

(** ** Sorting by year *)

Lemma insert_desc_In {A} (x r : Z * A) (l : list (Z * A)) :
  In x (insert_desc r l) <-> x = r \/ In x l.
Proof.
  split.
  - intro H. apply (Permutation_in _ (Permutation_sym (insert_desc_Permutation r l))) in H.
    destruct H as [<-|H]; [left; reflexivity | right; exact H].
  - intro H. apply (Permutation_in _ (insert_desc_Permutation r l)).
    destruct H as [->|H]; [left; reflexivity | right; exact H].
Qed.

Lemma insert_desc_sorted {A} (r : Z * A) (l : list (Z * A)) :
  StronglySorted (fun a b => fst b <= fst a) l ->
  StronglySorted (fun a b => fst b <= fst a) (insert_desc r l).
Proof.
  induction l as [|r' rest IH]; intro S; simpl.
  - repeat constructor.
  - inversion S as [|? ? Srest Hall]; subst.
    destruct (Z.ltb_spec (fst r') (fst r)).
    + constructor; [assumption|]. constructor; [lia|].
      eapply Forall_impl; [|exact Hall]. simpl. intros z Hz. lia.
    + constructor; [apply IH; assumption|].
      apply Forall_forall. intros z Hz. apply insert_desc_In in Hz.
      destruct Hz as [->|Hz]; [assumption|].
      rewrite Forall_forall in Hall. apply Hall. assumption.
Qed.

Lemma sort_rows_desc_sorted {A} (m : DataFrame A) :
  StronglySorted (fun a b => fst b <= fst a) (rows (sort_rows_desc m)).
Proof.
  unfold sort_rows_desc. simpl.
  induction (rows m) as [|r rest IH]; simpl; [constructor|].
  apply insert_desc_sorted. exact IH.
Qed.

Lemma sorted_desc_strict (l : list Z) :
  StronglySorted (fun a b => b <= a) l -> NoDup l -> StronglySorted (fun a b => b < a) l.
Proof.
  induction 1 as [|a l S IH Hall]; intro ND; [constructor|].
  inversion ND as [|? ? Hnot ND']; subst.
  constructor; [apply IH; assumption|].
  apply Forall_forall. intros z Hz. rewrite Forall_forall in Hall.
  specialize (Hall z Hz). assert (z <> a) by (intros ->; contradiction). lia.
Qed.

Lemma StronglySorted_map_fst {A} (R : Z -> Z -> Prop) (l : list (Z * A)) :
  StronglySorted (fun a b => R (fst a) (fst b)) l -> StronglySorted R (map fst l).
Proof.
  induction 1 as [|a l S IH Hall]; simpl; constructor; [assumption|].
  apply Forall_forall. intros z Hz. apply in_map_iff in Hz.
  destruct Hz as [x [<- Hx]]. rewrite Forall_forall in Hall. apply Hall. assumption.
Qed.

Lemma map_insert_desc {A B} (f : list A -> list B) (r : Z * list A) (l : list (Z * list A)) :
  map (fun row => (fst row, f (snd row))) (insert_desc r l) =
  insert_desc (fst r, f (snd r)) (map (fun row => (fst row, f (snd row))) l).
Proof.
  induction l as [|r' rest IH]; simpl; [reflexivity|].
  destruct (fst r' <? fst r); simpl; [reflexivity|]. rewrite IH. reflexivity.
Qed.

Lemma map_sort_rows {A B} (f : list A -> list B) (l : list (Z * list A)) :
  fold_right insert_desc [] (map (fun row => (fst row, f (snd row))) l) =
  map (fun row => (fst row, f (snd row))) (fold_right insert_desc [] l).
Proof.
  induction l as [|row rest IH]; simpl; [reflexivity|].
  rewrite map_insert_desc, IH. reflexivity.
Qed.

Section ShapeAndOrder.
Variable cell : Type.
Variable zero : cell.
Variable add : cell -> cell -> cell.

Local Abbreviation filtered := (@df_filtered cell).
Local Abbreviation pivot := (pivot_table zero add).
Local Abbreviation reshaped := (df_reshaped zero add).
Local Abbreviation total := (sum_gross zero add).

Lemma rectangular_pivot_table (df : list (MovieGenreRecord cell)) : rectangular (pivot df).
Proof.
  unfold rectangular, pivot_table. simpl. apply Forall_forall. intros row Hrow.
  apply in_map_iff in Hrow. destruct Hrow as [y [<- _]]. simpl.
  apply length_map.
Qed.

Lemma rectangular_sort_rows_desc {A} (m : DataFrame A) :
  rectangular m -> rectangular (sort_rows_desc m).
Proof.
  unfold rectangular. intro R. apply Forall_forall. intros row Hrow.
  apply (Permutation_in _ (Permutation_sym (sort_rows_desc_Permutation m))) in Hrow.
  rewrite Forall_forall in R. exact (R row Hrow).
Qed.

Lemma NoDup_index_df_reshaped (df : list (MovieGenreRecord cell))
    (genres : list string) (years : Z * Z) :
  NoDup (index (reshaped df genres years)).
Proof.
  unfold df_reshaped, index.
  eapply Permutation_NoDup; [apply Permutation_map; apply sort_rows_desc_Permutation|].
  apply NoDup_index_pivot_table.
Qed.

Lemma In_index_df_reshaped (df : list (MovieGenreRecord cell))
    (genres : list string) (years : Z * Z) (y : Z) :
  In y (index (reshaped df genres years)) <->
  exists r, In r df /\ year r = y /\ In (genre r) genres /\
            fst years <= year r <= snd years.
Proof.
  unfold df_reshaped.
  rewrite In_index_sort_rows_desc, In_index_pivot_table, in_map_iff. split.
  - intros [r [<- Hr]]. rewrite (In_df_filtered cell zero add) in Hr.
    destruct Hr as [Hin [Hg Hy]]. exists r.
    split; [exact Hin|]. split; [reflexivity|]. split; [exact Hg | exact Hy].
  - intros [r [Hin [<- [Hg Hy]]]]. exists r. split; [reflexivity|].
    apply (In_df_filtered cell zero add). split; [exact Hin|]. split; [exact Hg | exact Hy].
Qed.

Section Converted.
Variables rate conv : Type.
Variable mul : cell -> rate -> conv.

Local Abbreviation reshaped_eur := (df_reshaped_eur zero add mul).

Lemma rectangular_frame_mul (m : DataFrame cell) (r : rate) :
  rectangular m -> rectangular (frame_mul mul m r).
Proof.
  unfold rectangular, frame_mul. simpl. intro R. apply Forall_forall. intros row Hrow.
  apply in_map_iff in Hrow. destruct Hrow as [row0 [<- Hin]]. simpl.
  rewrite length_map. rewrite Forall_forall in R. exact (R row0 Hin).
Qed.

Lemma NoDup_index_df_reshaped_eur
    (df : list (MovieGenreRecord cell)) (genres : list string) (years : Z * Z)
    (r : rate) :
  NoDup (index (reshaped_eur df genres years r)).
Proof.
  unfold df_reshaped_eur. rewrite index_frame_mul. apply NoDup_index_df_reshaped.
Qed.

Lemma NoDup_columns_df_reshaped_eur
    (df : list (MovieGenreRecord cell)) (genres : list string) (years : Z * Z)
    (r : rate) :
  NoDup (columns (reshaped_eur df genres years r)).
Proof.
  unfold df_reshaped_eur, frame_mul, df_reshaped, sort_rows_desc, pivot_table. simpl.
  apply sorted_unique_NoDup.
Qed.

(** X1.  The converted matrix is rectangular: every row holds exactly
    one cell per column, and no year labels two rows and no genre two
    columns. *)
Theorem converted_matrix_is_rectangular
    (df : list (MovieGenreRecord cell)) (genres : list string) (years : Z * Z)
    (usd_to_eur_rate : rate) :
  rectangular (reshaped_eur df genres years usd_to_eur_rate) /\
  NoDup (index (reshaped_eur df genres years usd_to_eur_rate)) /\
  NoDup (columns (reshaped_eur df genres years usd_to_eur_rate)).
Proof.
  unfold df_reshaped_eur. split; [|split].
  - apply rectangular_frame_mul. unfold df_reshaped.
    apply rectangular_sort_rows_desc. apply rectangular_pivot_table.
  - rewrite index_frame_mul. apply NoDup_index_df_reshaped.
  - apply (NoDup_columns_df_reshaped_eur df genres years usd_to_eur_rate).
Qed.

(** X2.  The rows of the converted matrix come with strictly decreasing
    years (latest year first) and its columns in strictly increasing
    order of the genre strings. *)
Theorem converted_matrix_order
    (df : list (MovieGenreRecord cell)) (genres : list string) (years : Z * Z)
    (usd_to_eur_rate : rate) :
  StronglySorted (fun a b => b < a)
    (index (reshaped_eur df genres years usd_to_eur_rate)) /\
  StronglySorted (fun a b => String_as_OT.compare a b = Lt)
    (columns (reshaped_eur df genres years usd_to_eur_rate)).
Proof.
  unfold df_reshaped_eur. split.
  - rewrite index_frame_mul. apply sorted_desc_strict.
    + unfold index, df_reshaped. apply StronglySorted_map_fst.
      apply sort_rows_desc_sorted.
    + apply NoDup_index_df_reshaped.
  - unfold frame_mul, df_reshaped, sort_rows_desc, pivot_table. simpl.
    exact (sorted_unique_sorted (K:=string)
             (map (fun e => snd (fst e))
                (groupby_sum zero add (filtered df genres years)))).
Qed.

(** X3.  A year labels a row of the converted matrix exactly when some
    record of the dataset has that year, a selected genre and lies
    within the inclusive year range. *)
Theorem converted_rows_are_matched_years
    (df : list (MovieGenreRecord cell)) (genres : list string) (years : Z * Z)
    (usd_to_eur_rate : rate) (y : Z) :
  In y (index (reshaped_eur df genres years usd_to_eur_rate)) <->
  exists r, In r df /\ year r = y /\ In (genre r) genres /\
            fst years <= year r <= snd years.
Proof.
  unfold df_reshaped_eur. rewrite index_frame_mul. apply In_index_df_reshaped.
Qed.

(** X4.  The converted matrix has no row exactly when no record passes
    the filter, and then it has no column either; an empty genre
    selection is such a case. *)
Theorem converted_matrix_empty_iff
    (df : list (MovieGenreRecord cell)) (genres : list string) (years : Z * Z)
    (usd_to_eur_rate : rate) :
  (rows (reshaped_eur df genres years usd_to_eur_rate) = [] <->
   filtered df genres years = []) /\
  (filtered df genres years = [] ->
   reshaped_eur df genres years usd_to_eur_rate = mkFrame [] []) /\
  filtered df [] years = [].
Proof.
  assert (E : filtered df genres years = [] ->
              reshaped_eur df genres years usd_to_eur_rate = mkFrame [] []).
  { intro F. unfold df_reshaped_eur, df_reshaped. rewrite F. reflexivity. }
  split; [|split].
  - split.
    + intro R. destruct (filtered df genres years) as [|r rest] eqn:F; [reflexivity|].
      exfalso.
      assert (Hy : In (year r) (index (reshaped_eur df genres years usd_to_eur_rate))).
      { unfold df_reshaped_eur. rewrite index_frame_mul. unfold df_reshaped.
        rewrite In_index_sort_rows_desc, In_index_pivot_table, F.
        left. reflexivity. }
      unfold index in Hy. rewrite R in Hy. contradiction.
    + intro F. rewrite (E F). reflexivity.
  - exact E.
  - clear E. unfold df_filtered.
    induction df as [|r df IH]; [reflexivity|]. simpl. exact IH.
Qed.

(** X5.  Converting and sorting commute: multiplying the pivot by the
    rate and then sorting by year gives the matrix of lines 59-60. *)
Theorem convert_then_sort
    (df : list (MovieGenreRecord cell)) (genres : list string) (years : Z * Z)
    (usd_to_eur_rate : rate) :
  sort_rows_desc (frame_mul mul (pivot (filtered df genres years)) usd_to_eur_rate)
  = reshaped_eur df genres years usd_to_eur_rate.
Proof.
  unfold df_reshaped_eur, df_reshaped, sort_rows_desc, frame_mul.
  cbn [columns rows]. f_equal.
  apply (map_sort_rows (fun vs => map (fun v => mul v usd_to_eur_rate) vs)).
Qed.
End Converted.
End ShapeAndOrder.

(* ================================================================== *)
(** ** Widening the selection *)

Section Widening.
Variable cell : Type.
Variable zero : cell.
Variable add : cell -> cell -> cell.
Variables rate conv : Type.
Variable mul : cell -> rate -> conv.

Local Abbreviation reshaped := (df_reshaped zero add).
Local Abbreviation reshaped_eur := (df_reshaped_eur zero add mul).

Lemma matching_widen (df : list (MovieGenreRecord cell))
    (genres genres' : list string) (years years' : Z * Z) (y : Z) (g : string) :
  In g genres -> In g genres' ->
  fst years <= y <= snd years -> fst years' <= y <= snd years' ->
  matching df genres years y g = matching df genres' years' y g.
Proof.
  intros Hg Hg' Hy Hy'. unfold matching. apply filter_ext. intro r.
  destruct (String.eqb (genre r) g) eqn:Eg; [|reflexivity].
  destruct (year r =? y) eqn:Ey; [|rewrite !andb_false_r; reflexivity].
  apply String.eqb_eq in Eg. apply Z.eqb_eq in Ey. rewrite Eg, Ey.
  rewrite (proj2 (isin_In genres g) Hg), (proj2 (isin_In genres' g) Hg').
  rewrite (proj2 (between_spec _ _ _) Hy), (proj2 (between_spec _ _ _) Hy').
  reflexivity.
Qed.

(** X6.  Selecting more genres or a wider year range never changes a
    cell that is already shown: every cell of the converted matrix of
    the narrower selection is in the matrix of the wider selection, at
    the same year and genre and with the same value. *)
Theorem wider_selection_keeps_cells
    (df : list (MovieGenreRecord cell)) (genres genres' : list string)
    (years years' : Z * Z) (usd_to_eur_rate : rate) (y : Z) (g : string) (v : conv) :
  (forall x, In x genres -> In x genres') ->
  fst years' <= fst years -> snd years <= snd years' ->
  frame_at (reshaped_eur df genres years usd_to_eur_rate) y g = Some v ->
  frame_at (reshaped_eur df genres' years' usd_to_eur_rate) y g = Some v.
Proof.
  intros Hsub Hlo Hhi Hv.
  destruct (frame_at_labels _ _ _ _ Hv) as [Hy Hg].
  unfold df_reshaped_eur in *. rewrite index_frame_mul in Hy.
  change (columns (frame_mul mul (reshaped df genres years) usd_to_eur_rate))
    with (columns (reshaped df genres years)) in Hg.
  rewrite frame_at_frame_mul, (frame_at_df_reshaped _ _ _ _ _ _ _ _ Hy Hg) in Hv.
  pose proof (proj1 (In_index_df_reshaped _ zero add _ _ _ _) Hy)
    as [r [Hr [Ey [Hrg Hry]]]].
  pose proof (proj1 (In_columns_df_reshaped _ zero add _ _ _ _) Hg)
    as [Hgs [r' [Hr' [Eg Hry']]]].
  assert (Hy' : In y (index (reshaped df genres' years'))).
  { apply In_index_df_reshaped. exists r.
    split; [exact Hr|]. split; [exact Ey|]. split; [apply Hsub; exact Hrg | lia]. }
  assert (Hg' : In g (columns (reshaped df genres' years'))).
  { apply In_columns_df_reshaped. split; [apply Hsub; exact Hgs|].
    exists r'. split; [exact Hr'|]. split; [exact Eg | lia]. }
  rewrite frame_at_frame_mul, (frame_at_df_reshaped _ _ _ _ _ _ _ _ Hy' Hg').
  rewrite <- Hv. simpl. do 3 f_equal. symmetry.
  apply matching_widen; try assumption; try (apply Hsub; assumption); subst y; lia.
Qed.
End Widening.

(** X6 on the scenario: the Drama cell of 2005 with Drama alone and the
    years 2004 to 2006 selected is the one of the full scenario. *)
Lemma wider_selection_scenario :
  frame_at (df_reshaped_eur 0 Z.add eur_of scenario_df ["Drama"] (2004, 2006)
              scenario_rate) 2005 "Drama" = Some (Qmake 90 1) /\
  frame_at (df_reshaped_eur 0 Z.add eur_of scenario_df scenario_genres scenario_years
              scenario_rate) 2005 "Drama" = Some (Qmake 90 1).
Proof.
  assert (H : frame_at (df_reshaped_eur 0 Z.add eur_of scenario_df ["Drama"] (2004, 2006)
                          scenario_rate) 2005 "Drama" = Some (Qmake 90 1))
    by reflexivity.
  split; [exact H|].
  apply (wider_selection_keeps_cells Z 0 Z.add Q Q eur_of scenario_df ["Drama"]
           scenario_genres (2004, 2006) scenario_years scenario_rate 2005 "Drama").
  - intros x [<-|[]]. left. reflexivity.
  - simpl. lia.
  - simpl. lia.
  - exact H.
Defined.

(* ================================================================== *)
(** ** The chart data *)

Lemma In_combine_seq {A} (l : list A) (s j : nat) (x : A) :
  In (j, x) (combine (seq s (List.length l)) l) <->
  (s <= j)%nat /\ nth_error l (j - s) = Some x.
Proof.
  revert s. induction l as [|a l IH]; intro s; simpl.
  - split; [tauto|]. intros [_ H]. destruct (j - s)%nat; discriminate.
  - rewrite IH. split.
    + intros [E|[Hle Hn]].
      * inversion E; subst. rewrite Nat.sub_diag. split; [lia | reflexivity].
      * split; [lia|]. replace (j - s)%nat with (S (j - S s)) by lia. exact Hn.
    + intros [Hle Hn]. destruct (j - s)%nat as [|k] eqn:E.
      * left. simpl in Hn. inversion Hn; subst. f_equal. lia.
      * right. split; [lia|]. replace (j - S s)%nat with k by lia. exact Hn.
Qed.

Lemma In_enumerate {A} (l : list A) (j : nat) (x : A) :
  In (j, x) (enumerate l) <-> nth_error l j = Some x.
Proof.
  unfold enumerate. rewrite In_combine_seq, Nat.sub_0_r. split; [tauto|].
  intro H. split; [lia | exact H].
Qed.

Lemma length_enumerate {A} (l : list A) : List.length (enumerate l) = List.length l.
Proof.
  unfold enumerate. rewrite length_combine, length_seq. apply Nat.min_id.
Qed.

Lemma position_nth_error (g : string) (cols : list string) (j : nat) :
  position g cols = Some j -> nth_error cols j = Some g.
Proof.
  revert j. induction cols as [|c rest IH]; simpl; intros j H; [discriminate|].
  destruct (String.eqb c g) eqn:E.
  - apply String.eqb_eq in E. inversion H; subst. reflexivity.
  - destruct (position g rest) as [k|]; [|discriminate].
    inversion H; subst. simpl. apply IH. reflexivity.
Qed.

Lemma nth_error_position (g : string) (cols : list string) (j : nat) :
  NoDup cols -> nth_error cols j = Some g -> position g cols = Some j.
Proof.
  revert j. induction cols as [|c rest IH]; intros j ND H.
  - destruct j; discriminate.
  - inversion ND as [|? ? Hnot ND']; subst. destruct j as [|k]; simpl in *.
    + inversion H; subst. rewrite String.eqb_refl. reflexivity.
    + destruct (String.eqb c g) eqn:E.
      * apply String.eqb_eq in E. subst. exfalso. apply Hnot.
        eapply nth_error_In. eassumption.
      * rewrite (IH k ND' H). reflexivity.
Qed.

Lemma In_melt {A} (m : DataFrame A) (p : MovieGenreRecord A) :
  In p (melt m) <->
  exists j row, nth_error (columns m) j = Some (genre p) /\ In row (rows m) /\
                fst row = year p /\ nth_error (snd row) j = Some (gross p).
Proof.
  unfold melt, melt_column. rewrite in_flat_map. split.
  - intros [[j g] [Hjg Hp]]. apply In_enumerate in Hjg.
    apply in_flat_map in Hp. destruct Hp as [row [Hrow Hp]]. simpl in Hp.
    destruct (nth_error (snd row) j) as [v|] eqn:Hv; [|contradiction].
    destruct Hp as [<-|[]]. simpl. exists j, row. auto.
  - intros [j [row [Hg [Hrow [Hy Hv]]]]]. exists (j, genre p).
    split; [apply In_enumerate; exact Hg|].
    apply in_flat_map. exists row. split; [exact Hrow|]. simpl.
    rewrite Hv. left. destruct p as [y g v]. simpl in *. subst. reflexivity.
Qed.

Lemma length_flat_map_const {A B} (f : A -> list B) (l : list A) (n : nat) :
  (forall x, In x l -> List.length (f x) = n) ->
  List.length (flat_map f l) = (List.length l * n)%nat.
Proof.
  induction l as [|a l IH]; intro H; simpl; [reflexivity|].
  rewrite length_app, IH, (H a); [reflexivity | left; reflexivity |].
  intros x Hx. apply H. right. exact Hx.
Qed.

(** X7.  In a matrix without repeated row or column labels the rows of
    the long frame that [pd.melt] builds are exactly the cells: a point
    (year, genre, gross) is in the chart data if and only if the matrix
    holds gross at that year and genre.  If the matrix is rectangular
    there are as many points as rows times columns. *)
Theorem melt_points_are_cells {A} (m : DataFrame A) :
  NoDup (index m) -> NoDup (columns m) ->
  (forall p, In p (melt m) <-> frame_at m (year p) (genre p) = Some (gross p)) /\
  (rectangular m ->
   List.length (melt m) = (List.length (rows m) * List.length (columns m))%nat).
Proof.
  intros NDi NDc. split.
  - intro p. rewrite In_melt. unfold frame_at. split.
    + intros [j [row [Hg [Hrow [Hy Hv]]]]].
      rewrite <- Hy, (find_row_NoDup _ _ NDi Hrow), (nth_error_position _ _ _ NDc Hg).
      exact Hv.
    + destruct (find_row (year p) (rows m)) as [row|] eqn:F; [|discriminate].
      destruct (position (genre p) (columns m)) as [j|] eqn:P; [|discriminate].
      intro Hv. apply find_row_In in F. destruct F as [Hrow Hy].
      exists j, row. split; [apply position_nth_error; exact P|]. auto.
  - intro R. unfold melt.
    rewrite (length_flat_map_const _ _ (List.length (rows m))).
    + rewrite length_enumerate. apply Nat.mul_comm.
    + intros [j g] Hjg. apply In_enumerate in Hjg. unfold melt_column. simpl.
      assert (Hj : (j < List.length (columns m))%nat).
      { apply nth_error_Some. rewrite Hjg. discriminate. }
      unfold rectangular in R. clear Hjg.
      induction (rows m) as [|row rest IH]; simpl; [reflexivity|].
      inversion R as [|? ? Hlen Rrest]; subst. rewrite length_app, (IH Rrest).
      destruct (nth_error (snd row) j) as [v|] eqn:Hv; [reflexivity|].
      apply nth_error_None in Hv. lia.
Qed.

(** X7 on the scenario: the two cells of the converted matrix as chart
    points. *)
Lemma melt_scenario :
  melt scenario_converted =
    [mkRecord 2005 "Comedy" (Qmake 45 1); mkRecord 2005 "Drama" (Qmake 90 1)] /\
  frame_at scenario_converted 2005 "Drama" = Some (Qmake 90 1).
Proof.
  split; [reflexivity|].
  assert (NDi : NoDup (index scenario_converted))
    by (repeat constructor; simpl; tauto).
  assert (NDc : NoDup (columns scenario_converted)).
  { repeat constructor; simpl; [|tauto]. intros [E|[]]. discriminate. }
  apply (proj1 (melt_points_are_cells scenario_converted NDi NDc)
           (mkRecord 2005 "Drama" (Qmake 90 1))).
  right. left. reflexivity.
Defined.

Section ChartData.
Variable cell : Type.
Variable zero : cell.
Variable add : cell -> cell -> cell.
Variables rate conv : Type.
Variable mul : cell -> rate -> conv.

Local Abbreviation reshaped := (df_reshaped zero add).
Local Abbreviation reshaped_eur := (df_reshaped_eur zero add mul).
Local Abbreviation total := (sum_gross zero add).

(** X8.  When neither "year" nor "gross" is a selected genre, lines
    71-73 build the chart data without raising, and every point of it
    carries a selected genre, a year within the range and, as its value,
    the sum of gross over the matching records times the rate. *)
Theorem chart_points_are_converted_sums
    (df : list (MovieGenreRecord cell)) (genres : list string) (years : Z * Z)
    (usd_to_eur_rate : rate) :
  ~ In "year" genres -> ~ In "gross" genres ->
  exists points,
    df_chart (reshaped_eur df genres years usd_to_eur_rate) = Ok points /\
    forall p, In p points ->
      In (genre p) genres /\ fst years <= year p <= snd years /\
      gross p = mul (total (matching df genres years (year p) (genre p))) usd_to_eur_rate.
Proof.
  intros Hyear Hgross.
  exists (melt (reshaped_eur df genres years usd_to_eur_rate)). split.
  - unfold df_chart.
    assert (C : forall g, ~ In g genres ->
              isin (columns (reshaped_eur df genres years usd_to_eur_rate)) g = false).
    { intros g Hg. destruct (isin _ g) eqn:E; [|reflexivity].
      apply isin_In in E. unfold df_reshaped_eur in E.
      change (In g (columns (reshaped df genres years))) in E.
      apply In_columns_df_reshaped in E. tauto. }
    rewrite (C _ Hyear), (C _ Hgross). reflexivity.
  - intros p Hp. apply In_melt in Hp.
    destruct Hp as [j [row [Hg [Hrow [Hy Hv]]]]].
    assert (Hg' : In (genre p) (columns (reshaped df genres years))).
    { eapply nth_error_In. exact Hg. }
    assert (Hy' : In (year p) (index (reshaped df genres years))).
    { rewrite <- (index_frame_mul _ _ _ mul _ usd_to_eur_rate).
      rewrite <- Hy. unfold index. apply in_map. exact Hrow. }
    pose proof (proj1 (In_columns_df_reshaped _ zero add _ _ _ _) Hg') as [Hsel _].
    pose proof (proj1 (In_index_df_reshaped _ zero add _ _ _ _) Hy')
      as [r [_ [Ey [_ Hry]]]].
    split; [exact Hsel|]. split; [rewrite <- Ey; exact Hry|].
    assert (F : frame_at (reshaped_eur df genres years usd_to_eur_rate) (year p) (genre p)
                = Some (gross p)).
    { unfold frame_at. rewrite <- Hy.
      rewrite (find_row_NoDup _ _
                 (NoDup_index_df_reshaped_eur _ zero add _ _ mul df genres years
                    usd_to_eur_rate) Hrow).
      rewrite (nth_error_position _ _ _
                 (NoDup_columns_df_reshaped_eur _ zero add _ _ mul df genres years
                    usd_to_eur_rate) Hg).
      exact Hv. }
    unfold df_reshaped_eur in F.
    rewrite frame_at_frame_mul, (frame_at_df_reshaped _ _ _ _ _ _ _ _ Hy' Hg') in F.
    simpl in F. inversion F. reflexivity.
Qed.
End ChartData.

(** X8 on the scenario. *)
Lemma chart_scenario :
  exists points,
    df_chart (df_reshaped_eur 0 Z.add eur_of scenario_df scenario_genres scenario_years
                scenario_rate) = Ok points /\
    In (mkRecord 2005 "Drama" (Qmake 90 1)) points.
Proof.
  assert (H1 : ~ In "year" scenario_genres).
  { simpl. intros [E|[E|[]]]; discriminate. }
  assert (H2 : ~ In "gross" scenario_genres).
  { simpl. intros [E|[E|[]]]; discriminate. }
  destruct (chart_points_are_converted_sums Z 0 Z.add Q Q eur_of scenario_df
              scenario_genres scenario_years scenario_rate H1 H2) as [points [Hc _]].
  exists points. split; [exact Hc|].
  assert (E : Ok points = Ok (melt scenario_converted)) by (rewrite <- Hc; reflexivity).
  inversion E. right. left. reflexivity.
Defined.

(* ================================================================== *)
(** ** The order of the records in the dataset *)

Lemma Permutation_filter {A} (p : A -> bool) (l l' : list A) :
  Permutation l l' -> Permutation (filter p l) (filter p l').
Proof.
  induction 1 as [|x l l' P IH|x y l|l l' l'' P1 IH1 P2 IH2]; simpl.
  - constructor.
  - destruct (p x); [apply perm_skip|]; exact IH.
  - destruct (p x), (p y); try apply Permutation_refl. apply perm_swap.
  - eapply Permutation_trans; eassumption.
Qed.

Lemma fold_left_Permutation {A B} (f : A -> B -> A) (l l' : list B) :
  (forall a x y, f (f a x) y = f (f a y) x) ->
  Permutation l l' -> forall a, fold_left f l a = fold_left f l' a.
Proof.
  intros C. induction 1 as [|x l l' P IH|x y l|l l' l'' P1 IH1 P2 IH2]; intro a; simpl.
  - reflexivity.
  - apply IH.
  - rewrite C. reflexivity.
  - rewrite IH1. apply IH2.
Qed.

Lemma sorted_same_elements {K} `{LabelOrderLaws K} (l1 l2 : list K) :
  StronglySorted lt_label l1 -> StronglySorted lt_label l2 ->
  (forall x, In x l1 <-> In x l2) -> l1 = l2.
Proof.
  intro S1. revert l2. induction S1 as [|a1 t1 S1 IH Hall1]; intros l2 S2 E.
  - destruct l2 as [|a2 t2]; [reflexivity|].
    exfalso. apply (proj2 (E a2)). left. reflexivity.
  - destruct S2 as [|a2 t2 S2 Hall2].
    + exfalso. apply (proj1 (E a1)). left. reflexivity.
    + rewrite Forall_forall in Hall1, Hall2.
      assert (Ea : a1 = a2).
      { destruct (proj1 (E a1) (or_introl eq_refl)) as [X|X]; [congruence|].
        destruct (proj2 (E a2) (or_introl eq_refl)) as [Y|Y]; [congruence|].
        exfalso. apply (cmp_lt_neq a1 a1); [|reflexivity].
        eapply cmp_lt_trans; [apply Hall1; exact Y | apply Hall2; exact X]. }
      subst a2. f_equal. apply IH; [exact S2|].
      intro x. split; intro Hx.
      * destruct (proj1 (E x) (or_intror Hx)) as [X|X]; [|exact X].
        exfalso. subst x. apply (cmp_lt_neq a1 a1); [apply Hall1; exact Hx | reflexivity].
      * destruct (proj2 (E x) (or_intror Hx)) as [X|X]; [|exact X].
        exfalso. subst x. apply (cmp_lt_neq a1 a1); [apply Hall2; exact Hx | reflexivity].
Qed.

Lemma sorted_unique_same_elements {K} `{LabelOrderLaws K} (l1 l2 : list K) :
  (forall x, In x l1 <-> In x l2) -> sorted_unique l1 = sorted_unique l2.
Proof.
  intro E. apply sorted_same_elements; try apply sorted_unique_sorted.
  intro x. rewrite !In_sorted_unique. apply E.
Qed.

Section RecordOrder.
Variable cell : Type.
Variable zero : cell.
Variable add : cell -> cell -> cell.
Hypothesis add_assoc : forall a b c, add (add a b) c = add a (add b c).
Hypothesis add_comm : forall a b, add a b = add b a.

Local Abbreviation pivot := (pivot_table zero add).
Local Abbreviation total := (sum_gross zero add).

Lemma sum_gross_Permutation (l l' : list (MovieGenreRecord cell)) :
  Permutation l l' -> total l = total l'.
Proof.
  intro P. unfold sum_gross. apply fold_left_Permutation; [|exact P].
  intros a x y. rewrite !add_assoc. f_equal. apply add_comm.
Qed.

Lemma pivot_table_cells (df : list (MovieGenreRecord cell)) :
  pivot df =
  mkFrame (columns (pivot df))
    (map (fun y => (y, map (fun g => total (group_rows (y, g) df)) (columns (pivot df))))
         (index (pivot df))).
Proof.
  rewrite index_pivot_table. unfold pivot_table at 1. cbn [columns]. f_equal.
  apply map_ext. intro y. f_equal. apply map_ext. intro g.
  apply or_zero_assoc_groupby_sum.
Qed.

Lemma pivot_table_Permutation (df df' : list (MovieGenreRecord cell)) :
  Permutation df df' -> pivot df = pivot df'.
Proof.
  intro P.
  assert (Hi : forall d y, In y (map (fun e => fst (fst e)) (groupby_sum zero add d))
                           <-> In y (map year d)).
  { intros d y. rewrite <- (In_index_pivot_table _ zero add y d), index_pivot_table.
    symmetry. apply In_sorted_unique. }
  assert (Hc : forall d g, In g (map (fun e => snd (fst e)) (groupby_sum zero add d))
                           <-> In g (map genre d)).
  { intros d g. rewrite <- (In_columns_pivot_table _ zero add g d).
    unfold pivot_table. cbn [columns]. symmetry. apply In_sorted_unique. }
  assert (Ei : index (pivot df) = index (pivot df')).
  { rewrite !index_pivot_table. apply sorted_unique_same_elements. intro y.
    rewrite (Hi df y), (Hi df' y).
    split; apply Permutation_in; apply Permutation_map;
      [exact P | apply Permutation_sym; exact P]. }
  assert (Ec : columns (pivot df) = columns (pivot df')).
  { unfold pivot_table. cbn [columns]. apply sorted_unique_same_elements. intro g.
    rewrite (Hc df g), (Hc df' g).
    split; apply Permutation_in; apply Permutation_map;
      [exact P | apply Permutation_sym; exact P]. }
  rewrite (pivot_table_cells df), (pivot_table_cells df'), Ei, Ec. f_equal.
  apply map_ext. intro y. f_equal. apply map_ext. intro g.
  apply sum_gross_Permutation. unfold group_rows. apply Permutation_filter. exact P.
Qed.

Section Converted.
Variables rate conv : Type.
Variable mul : cell -> rate -> conv.

(** X9.  When the addition of the gross column is associative and
    commutative (as for integer amounts), the converted matrix does not
    depend on the order of the records in the dataset: any reordering of
    the rows of the CSV gives the same matrix. *)
Theorem record_order_is_irrelevant
    (df df' : list (MovieGenreRecord cell)) (genres : list string) (years : Z * Z)
    (usd_to_eur_rate : rate) :
  Permutation df df' ->
  df_reshaped_eur zero add mul df genres years usd_to_eur_rate =
  df_reshaped_eur zero add mul df' genres years usd_to_eur_rate.
Proof.
  intro P. unfold df_reshaped_eur, df_reshaped.
  rewrite (pivot_table_Permutation (df_filtered df genres years)
             (df_filtered df' genres years)); [reflexivity|].
  unfold df_filtered. apply Permutation_filter. exact P.
Qed.
End Converted.
End RecordOrder.

(** X9 on the scenario with its two records swapped. *)
Lemma record_order_scenario :
  df_reshaped_eur 0 Z.add eur_of scenario_df scenario_genres scenario_years scenario_rate =
  df_reshaped_eur 0 Z.add eur_of (rev scenario_df) scenario_genres scenario_years
    scenario_rate.
Proof.
  apply (record_order_is_irrelevant Z 0 Z.add
           (fun a b c => eq_sym (Z.add_assoc a b c)) Z.add_comm Q Q eur_of).
  apply Permutation_rev.
Defined.

(* ================================================================== *)
(** * Further properties of the exchange-rate fetch *)

Section FetchMore.
Variable F : Type.
Variable float_of_int : Z -> option F.
Variable float_of_str : string -> option F.

Local Abbreviation body := (load_usd_to_eur_rate_body float_of_int float_of_str).
Local Abbreviation cached := (load_usd_to_eur_rate float_of_int float_of_str).
Local Abbreviation guarded := (guarded_fetch float_of_int float_of_str).
Local Abbreviation calls_from := (call_sequence float_of_int float_of_str).




Lemma cached_Raise (now : Z) (x : exchange F) (c c' : cache F) (e : exn_class) :
  cached now x c = (Raise e, c') -> body x = Raise e.
Proof.
  unfold load_usd_to_eur_rate, run_and_store.
  destruct (entry c) as [e0|]; [destruct (fresh now e0); [discriminate|]|];
    destruct (body x) as [v|e1]; intro H; inversion H; reflexivity.
Qed.

Lemma body_payload_raises (p : json F) (e : exn_class) :
  body (Body p) = Raise e ->
  e = KeyError \/ e = ValueError \/ e = TypeError \/ e = OverflowError.
Proof.
  unfold load_usd_to_eur_rate_body. cbn [read_payload bind].
  destruct (getitem p "rates") as [rs|e1] eqn:E1; cbn [bind].
  2:{ intro B. inversion B; subst. apply getitem_raises in E1. tauto. }
  destruct (getitem rs "EUR") as [eur|e2] eqn:E2; cbn [bind].
  2:{ intro B. inversion B; subst. apply getitem_raises in E2. tauto. }
  destruct (py_float float_of_int float_of_str eur) as [r|e3] eqn:E3; cbn [bind].
  2:{ intro B. inversion B; subst. apply py_float_raises in E3. tauto. }
  destruct (getitem p "date") as [d|e4] eqn:E4; cbn [bind].
  2:{ intro B. inversion B; subst. apply getitem_raises in E4. tauto. }
  discriminate.
Qed.

(** X11.  Once a body has been received and parsed, whatever the JSON
    value, the clock and the cache, an exception that leaves the guarded
    call is a [TypeError] or an [OverflowError]: a value that cannot be
    subscripted with a string, or a rate that [float] does not take.
    (Failures of the network layer and of the parser are not in this
    statement; of those the guard catches only the classes of line 40.) *)
Theorem escaping_exceptions (now : Z) (p : json F) (c c' : cache F) (e : exn_class) :
  guarded now (Body p) c = (Uncaught e, c') ->
  e = TypeError \/ e = OverflowError.
Proof.
  unfold guarded_fetch.
  destruct (cached now (Body p) c) as [[[r d]|e0] c1] eqn:C; [discriminate|].
  destruct (except_matches handled e0) eqn:M; [discriminate|].
  intro H. inversion H; subst e0 c1. apply cached_Raise in C.
  destruct (body_payload_raises p e C) as [X|[X|[X|X]]]; subst e;
    try discriminate; auto.
Qed.

(** A body cut short and a body nested too deeply raise classes that
    line 40 does not list: they leave the script as they are. *)
Lemma truncated_and_deep_bodies_escape (now : Z) :
  fst (guarded now BodyTruncated empty_cache) = Uncaught IncompleteRead /\
  fst (guarded now BodyTooDeep empty_cache) = Uncaught RecursionError.
Proof. split; reflexivity. Qed.

Lemma call_sequence_cons (now : Z) (x : exchange F) (rest : list (Z * exchange F))
    (c : cache F) :
  calls_from ((now, x) :: rest) c =
  (fst (cached now x c) :: fst (calls_from rest (snd (cached now x c))),
   snd (calls_from rest (snd (cached now x c)))).
Proof.
  simpl. destruct (cached now x c) as [r c1]. simpl.
  destruct (calls_from rest c1) as [rs c2]. reflexivity.
Qed.

(** X12.  While the cached entry is within its twelve hours, any number
    of runs of the script get the cached pair and the cache is left as
    it is: no request is made, whatever the network would answer. *)
Theorem runs_within_window_make_no_request
    (calls : list (Z * exchange F)) (c : cache F) (e : cache_entry F) :
  entry c = Some e ->
  Forall (fun call => fst call < stored_at e + 12 * 60 * 60) calls ->
  calls_from calls c = (map (fun _ => Ok (cached_value e)) calls, c).
Proof.
  intros He. induction 1 as [|[now x] rest Hnow Hrest IH].
  - reflexivity.
  - rewrite call_sequence_cons.
    assert (Hit : cached now x c = (Ok (cached_value e), c)).
    { unfold load_usd_to_eur_rate, fresh. rewrite He.
      change ttl with (12 * 60 * 60). simpl in Hnow.
      destruct (Z.ltb_spec now (stored_at e + 12 * 60 * 60)); [reflexivity | lia]. }
    rewrite Hit. cbn [fst snd]. rewrite IH. reflexivity.
Qed.

(** X13.  Once the entry has expired the old rate is never served
    again: a call whose fetch fails raises that failure, leaves the
    cache empty, and the next call makes a request whenever it comes. *)
Theorem expired_entry_is_not_served (now : Z) (x : exchange F) (c : cache F)
    (e : cache_entry F) (ex : exn_class) :
  entry c = Some e ->
  stored_at e + 12 * 60 * 60 <= now ->
  body x = Raise ex ->
  fst (cached now x c) = Raise ex /\
  entry (snd (cached now x c)) = None /\
  forall now' x',
    requests (snd (cached now' x' (snd (cached now x c)))) = S (S (requests c)).
Proof.
  intros He Hexp Hb.
  assert (E : cached now x c = (Raise ex, mkCache None (S (requests c)))).
  { unfold load_usd_to_eur_rate, fresh. rewrite He. change ttl with (12 * 60 * 60).
    destruct (Z.ltb_spec now (stored_at e + 12 * 60 * 60)); [lia|].
    unfold run_and_store. rewrite Hb. reflexivity. }
  rewrite E. cbn [fst snd entry]. split; [reflexivity|]. split; [reflexivity|].
  intros now' x'. unfold load_usd_to_eur_rate. cbn [entry].
  rewrite run_and_store_requests. reflexivity.
Qed.

Lemma cached_call_invariant (past : list (Z * exchange F)) (now : Z) (x : exchange F)
    (c : cache F) :
  entry_was_fetched float_of_int float_of_str past c ->
  entry_was_fetched float_of_int float_of_str (past ++ [(now, x)]) (snd (cached now x c)) /\
  (forall v, fst (cached now x c) = Ok v ->
     exists t x', In (t, x') (past ++ [(now, x)]) /\ body x' = Ok v) /\
  (requests (snd (cached now x c)) <= S (requests c))%nat.
Proof.
  intro Inv.
  assert (Miss : entry_was_fetched float_of_int float_of_str (past ++ [(now, x)])
                   (snd (run_and_store float_of_int float_of_str now x c)) /\
                 (forall v, fst (run_and_store float_of_int float_of_str now x c) = Ok v ->
                    exists t x', In (t, x') (past ++ [(now, x)]) /\ body x' = Ok v) /\
                 (requests (snd (run_and_store float_of_int float_of_str now x c))
                  <= S (requests c))%nat).
  { unfold run_and_store. destruct (body x) as [v|ex] eqn:B; cbn [fst snd].
    - split; [|split].
      + intros e He. cbn [entry] in He. inversion He; subst e. cbn [stored_at cached_value].
        exists x. split; [apply in_or_app; right; left; reflexivity | exact B].
      + intros v' Hv. inversion Hv; subst v'. exists now, x.
        split; [apply in_or_app; right; left; reflexivity | exact B].
      + cbn [requests]. apply Nat.le_refl.
    - split; [|split].
      + intros e He. discriminate.
      + intros v Hv. discriminate.
      + cbn [requests]. apply Nat.le_refl. }
  unfold load_usd_to_eur_rate. destruct (entry c) as [e|] eqn:He; [|exact Miss].
  destruct (fresh now e); [|exact Miss]. cbn [fst snd].
  destruct (Inv e He) as [x0 [Hin Hb]]. split; [|split].
  - intros e' He'. rewrite He in He'. inversion He'; subst e'.
    exists x0. split; [apply in_or_app; left; exact Hin | exact Hb].
  - intros v Hv. inversion Hv; subst v. exists (stored_at e), x0.
    split; [apply in_or_app; left; exact Hin | exact Hb].
  - apply Nat.le_succ_diag_r.
Qed.

Lemma call_sequence_invariant (calls past : list (Z * exchange F)) (c : cache F) :
  entry_was_fetched float_of_int float_of_str past c ->
  entry_was_fetched float_of_int float_of_str (past ++ calls) (snd (calls_from calls c)) /\
  (forall v, In (Ok v) (fst (calls_from calls c)) ->
     exists t x, In (t, x) (past ++ calls) /\ body x = Ok v) /\
  (requests (snd (calls_from calls c)) <= requests c + List.length calls)%nat /\
  List.length (fst (calls_from calls c)) = List.length calls.
Proof.
  revert past c. induction calls as [|[now x] rest IH]; intros past c Inv.
  - simpl. rewrite app_nil_r. split; [exact Inv|]. split; [intros v []|]. split; [lia|reflexivity].
  - rewrite call_sequence_cons. cbn [fst snd].
    destruct (cached_call_invariant past now x c Inv) as [Inv1 [Hv1 Hr1]].
    destruct (IH (past ++ [(now, x)]) (snd (cached now x c)) Inv1) as [Inv2 [Hv2 [Hr2 Hl2]]].
    rewrite <- app_assoc in Inv2, Hv2. simpl in Inv2, Hv2.
    split; [exact Inv2|]. split; [|split].
    + intros v [Hv|Hv].
      * destruct (Hv1 v Hv) as [t [x' [Hin Hb]]]. exists t, x'. split; [|exact Hb].
        apply in_app_or in Hin. apply in_or_app.
        destruct Hin as [Hin|[Hin|[]]]; [left; exact Hin | right; left; exact Hin].
      * apply Hv2. exact Hv.
    + simpl. lia.
    + simpl. rewrite Hl2. reflexivity.
Qed.

(** X14.  Along any sequence of runs that starts with an empty cache,
    every pair the decorated function returns, and the pair the cache
    holds at the end, is what the fetch produced from the network answer
    of one of those runs; there is one result per run and never more
    requests than runs. *)
Theorem cache_serves_only_fetched_pairs (calls : list (Z * exchange F)) :
  (forall v, In (Ok v) (fst (calls_from calls empty_cache)) ->
     exists t x, In (t, x) calls /\ body x = Ok v) /\
  (forall e, entry (snd (calls_from calls empty_cache)) = Some e ->
     exists x, In (stored_at e, x) calls /\ body x = Ok (cached_value e)) /\
  (requests (snd (calls_from calls empty_cache)) <= List.length calls)%nat /\
  List.length (fst (calls_from calls empty_cache)) = List.length calls.
Proof.
  assert (Inv : entry_was_fetched float_of_int float_of_str [] (@empty_cache F)) by (intros e He; discriminate).
  destruct (call_sequence_invariant calls [] empty_cache Inv) as [I [V [R L]]].
  simpl in I, V, R. split; [exact V|]. split; [exact I|]. split; [exact R | exact L].
Qed.
End FetchMore.

(** X11 on the answer whose rate is [null]. *)
Lemma escaping_exceptions_example :
  guarded_fetch Q_of_int Q_of_str 100 (Body null_rate_payload) empty_cache =
    (Uncaught TypeError, mkCache None 1) /\
  (TypeError = TypeError \/ TypeError = OverflowError).
Proof.
  assert (H : guarded_fetch Q_of_int Q_of_str 100 (Body null_rate_payload) empty_cache =
                (Uncaught TypeError, mkCache None 1)) by reflexivity.
  split; [exact H|].
  exact (escaping_exceptions Q Q_of_int Q_of_str 100 null_rate_payload
           empty_cache (mkCache None 1) TypeError H).
Defined.

(** X12 on an example: an entry stored at second 100 and two later runs
    during which the service is down. *)
Lemma runs_within_window_example :
  call_sequence Q_of_int Q_of_str [(200, ConnectFailed); (40000, BodyNotJson)]
    (mkCache (Some (mkEntry (Qmake 9 10, JString "2024-01-01") 100)) 1) =
  ([Ok (Qmake 9 10, JString "2024-01-01"); Ok (Qmake 9 10, JString "2024-01-01")],
   mkCache (Some (mkEntry (Qmake 9 10, JString "2024-01-01") 100)) 1).
Proof.
  apply (runs_within_window_make_no_request Q Q_of_int Q_of_str
           [(200, ConnectFailed); (40000, BodyNotJson)]
           (mkCache (Some (mkEntry (Qmake 9 10, JString "2024-01-01") 100)) 1)
           (mkEntry (Qmake 9 10, JString "2024-01-01") 100) eq_refl).
  repeat constructor.
Defined.

(** X13 on an example: the entry of second 100 has expired at second
    43300 and the service is down. *)
Lemma expired_entry_example :
  fst (load_usd_to_eur_rate Q_of_int Q_of_str 43300 ConnectFailed
         (mkCache (Some (mkEntry (Qmake 9 10, JString "2024-01-01") 100)) 1))
  = Raise URLError.
Proof.
  apply (expired_entry_is_not_served Q Q_of_int Q_of_str 43300 ConnectFailed
           (mkCache (Some (mkEntry (Qmake 9 10, JString "2024-01-01") 100)) 1)
           (mkEntry (Qmake 9 10, JString "2024-01-01") 100) URLError eq_refl).
  - simpl. lia.
  - reflexivity.
Defined.

(* ================================================================== *)
(** * Further properties of the script state *)

Section ScriptMore.
Variables cell rate conv : Type.
Variable zero : cell.
Variable add : cell -> cell -> cell.
Variable mul : cell -> rate -> conv.

Local Abbreviation st := (state cell rate conv).

(** X15.  When "year" is not a selected genre (so that line 59 does not
    raise), lines 55-60 from a state that holds the inputs add exactly
    four objects to the heap: the filtered frame, the pivot, the sorted
    matrix and the converted matrix.  Every object that existed, the
    loaded dataset among them, is unchanged and the inputs are still
    bound to the same values; afterwards [df_filtered] refers to the
    first new object, [df_reshaped] to the sorted matrix and
    [df_reshaped_eur] to the converted one. *)
Theorem pipeline_only_allocates (s : st) (df : list (MovieGenreRecord cell))
    (genres : list string) (years : Z * Z) (r : rate) :
  inputs_are s df genres years r ->
  ~ In "year" genres ->
  exists s',
    run_pipeline zero add mul s = Some s' /\
    heap s' = heap s ++
      [ORecords (df_filtered df genres years);
       OFrame (pivot_table zero add (df_filtered df genres years));
       OFrame (df_reshaped zero add df genres years);
       OFrameEur (df_reshaped_eur zero add mul df genres years r)] /\
    (forall k o, nth_error (heap s) k = Some o -> nth_error (heap s') k = Some o) /\
    inputs_are s' df genres years r /\
    v_df_filtered (vars s') = Some (List.length (heap s)) /\
    v_df_reshaped (vars s') = Some (2 + List.length (heap s))%nat /\
    v_df_reshaped_eur (vars s') = Some (3 + List.length (heap s))%nat.
Proof.
  intros [Hdf [Hg [Hy Hr]]] Hyear.
  pose proof (df_reshaped_result_selected cell zero add df genres years Hyear) as Sorted.
  unfold df_reshaped_result, df_reshaped in Sorted.
  destruct s as [h e]. cbn [vars heap] in *.
  unfold deref, obind in Hdf. cbn [heap vars] in Hdf.
  destruct (v_df e) as [l|] eqn:El; [|discriminate].
  destruct (nth_error h l) as [o|] eqn:Eo; [|discriminate].
  destruct o as [df'| |]; try discriminate. inversion Hdf; subst df'.
  eexists. split.
  - unfold run_pipeline, stmt_filter, deref, obind. cbn [vars heap].
    rewrite El, Eo, Hg, Hy. cbn [as_records alloc heap vars].
    unfold stmt_pivot, deref, obind.
    cbn [vars heap set_df_filtered v_df_filtered alloc].
    rewrite nth_error_alloc_new. cbn [as_records].
    unfold stmt_sort, deref, obind.
    cbn [vars heap set_df_reshaped v_df_reshaped alloc].
    rewrite nth_error_alloc_new. cbn [as_frame]. rewrite Sorted.
    cbn [alloc heap vars].
    unfold stmt_convert, deref, obind.
    cbn [vars heap set_df_reshaped v_df_reshaped v_usd_to_eur_rate alloc
         set_df_filtered].
    rewrite nth_error_alloc_new. cbn [as_frame]. rewrite Hr.
    reflexivity.
  - cbn [heap vars set_df_reshaped_eur set_df_reshaped set_df_filtered
         v_df v_genres v_years v_usd_to_eur_rate v_df_filtered v_df_reshaped
         v_df_reshaped_eur].
    assert (Old : forall k o, nth_error h k = Some o ->
              nth_error ((((h ++ [ORecords (df_filtered df genres years)]) ++
                 [OFrame (pivot_table zero add (df_filtered df genres years))]) ++
                 [OFrame (sort_rows_desc
                            (pivot_table zero add (df_filtered df genres years)))]) ++
                 [OFrameEur (frame_mul mul
                               (sort_rows_desc
                                  (pivot_table zero add (df_filtered df genres years)))
                               r)]) k = Some o).
    { intros k o Hk. repeat apply nth_error_alloc_old. exact Hk. }
    split; [rewrite <- !app_assoc; reflexivity|].
    split; [exact Old|].
    split.
    { unfold inputs_are, deref, obind.
      cbn [vars heap v_df v_genres v_years v_usd_to_eur_rate
           set_df_reshaped_eur set_df_reshaped set_df_filtered].
      rewrite El, (Old l _ Eo). auto. }
    rewrite !length_app. cbn [List.length]. 
    split; [reflexivity|]. split; f_equal; lia.
Qed.
(** The error path of line 59: when the pivot has a column labelled
    "year" the run stops there and [df_reshaped_eur] is never bound. *)
Lemma pipeline_raises_on_year_column (s : st) (df : list (MovieGenreRecord cell))
    (genres : list string) (years : Z * Z) (r : rate) :
  inputs_are s df genres years r ->
  In "year" (columns (pivot_table zero add (df_filtered df genres years))) ->
  run_pipeline zero add mul s = None.
Proof.
  intros [Hdf [Hg [Hy Hr]]] Hyear.
  pose proof (sort_values_desc_Raise _ Hyear) as Raised.
  destruct s as [h e]. cbn [vars heap] in *.
  unfold deref, obind in Hdf. cbn [heap vars] in Hdf.
  destruct (v_df e) as [l|] eqn:El; [|discriminate].
  destruct (nth_error h l) as [o|] eqn:Eo; [|discriminate].
  destruct o as [df'| |]; try discriminate. inversion Hdf; subst df'.
  unfold run_pipeline, stmt_filter, deref, obind. cbn [vars heap].
  rewrite El, Eo, Hg, Hy. cbn [as_records alloc heap vars].
  unfold stmt_pivot, deref, obind.
  cbn [vars heap set_df_filtered v_df_filtered alloc].
  rewrite nth_error_alloc_new. cbn [as_records].
  unfold stmt_sort, deref, obind.
  cbn [vars heap set_df_reshaped v_df_reshaped alloc].
  rewrite nth_error_alloc_new. cbn [as_frame]. rewrite Raised. reflexivity.
Qed.
End ScriptMore.

(** X15 on the scenario: the dataset is object 0 before and after. *)
Lemma pipeline_only_allocates_scenario :
  exists s',
    run_pipeline 0 Z.add eur_of scenario_state = Some s' /\
    nth_error (heap s') 0%nat = Some (ORecords scenario_df) /\
    List.length (heap s') = 5%nat.
Proof.
  assert (H : inputs_are scenario_state scenario_df scenario_genres scenario_years
                scenario_rate) by (repeat split).
  assert (Hyear : ~ In "year" scenario_genres).
  { simpl. intros [E|[E|[]]]; discriminate. }
  destruct (pipeline_only_allocates Z Q Q 0 Z.add eur_of scenario_state scenario_df
              scenario_genres scenario_years scenario_rate H Hyear)
    as [s' [Hrun [Hheap [Hold _]]]].
  exists s'. split; [exact Hrun|]. split; [apply Hold; reflexivity|].
  rewrite Hheap. reflexivity.
Defined.

(* ================================================================== *)
(** * The options of the genre multiselect *)

Lemma unique_fold_NoDup (l seen : list string) :
  NoDup seen ->
  NoDup (fold_left (fun seen g => if isin seen g then seen else seen ++ [g]) l seen).
Proof.
  revert seen. induction l as [|x l IH]; intros seen ND; simpl; [exact ND|].
  apply IH. destruct (isin seen x) eqn:E; [exact ND|].
  apply NoDup_app; [exact ND | repeat constructor; simpl; tauto |].
  intros y Hy [<-|[]]. apply isin_In in Hy. congruence.
Qed.

Lemma unique_fold_id (l seen : list string) :
  (forall g, In g l -> In g seen) ->
  fold_left (fun seen g => if isin seen g then seen else seen ++ [g]) l seen = seen.
Proof.
  revert seen. induction l as [|x l IH]; intros seen H; simpl; [reflexivity|].
  rewrite (proj2 (isin_In seen x) (H x (or_introl eq_refl))).
  apply IH. intros g Hg. apply H. right. exact Hg.
Qed.

Lemma unique_fold_app (l seen : list string) :
  exists more,
    fold_left (fun seen g => if isin seen g then seen else seen ++ [g]) l seen
    = seen ++ more.
Proof.
  revert seen. induction l as [|x l IH]; intro seen; simpl.
  - exists []. symmetry. apply app_nil_r.
  - destruct (isin seen x); [apply IH|].
    destruct (IH (seen ++ [x])) as [more E]. exists (x :: more).
    rewrite E, <- app_assoc. reflexivity.
Qed.

Lemma unique_fold_NoDup_id (l seen : list string) :
  NoDup (seen ++ l) ->
  fold_left (fun seen g => if isin seen g then seen else seen ++ [g]) l seen = seen ++ l.
Proof.
  revert seen. induction l as [|x l IH]; intros seen ND; simpl.
  - symmetry. apply app_nil_r.
  - assert (E : isin seen x = false).
    { destruct (isin seen x) eqn:E; [|reflexivity]. apply isin_In in E.
      exfalso. apply NoDup_remove_2 in ND. apply ND. apply in_or_app. left. exact E. }
    rewrite E, IH; rewrite <- app_assoc; [reflexivity | exact ND].
Qed.

(** X16.  The options offered by the genre multiselect,
    [df.genre.unique()], are the genres of the dataset, each exactly
    once, starting with the genre of the first record; a list without
    repetitions is returned as it is. *)
Theorem unique_lists_each_genre_once (l : list string) :
  NoDup (unique l) /\
  (forall g, In g (unique l) <-> In g l) /\
  (forall x rest, l = x :: rest -> exists more, unique l = x :: more) /\
  (NoDup l -> unique l = l).
Proof.
  split; [|split; [|split]].
  - unfold unique. apply unique_fold_NoDup. constructor.
  - intro g. apply In_unique.
  - intros x rest ->. unfold unique. simpl.
    destruct (unique_fold_app rest [x]) as [more E]. exists more. exact E.
  - intro ND. unfold unique. apply (unique_fold_NoDup_id l []). exact ND.
Qed.

(* ================================================================== *)
(** ** The grand total *)

Lemma Permutation_flat_map {A B} (f : A -> list B) (l l' : list A) :
  Permutation l l' -> Permutation (flat_map f l) (flat_map f l').
Proof.
  induction 1 as [|x l l' P IH|x y l|l l' l'' P1 IH1 P2 IH2]; simpl.
  - constructor.
  - apply Permutation_app_head. exact IH.
  - rewrite !app_assoc. apply Permutation_app_tail. apply Permutation_app_comm.
  - eapply Permutation_trans; eassumption.
Qed.

Lemma Permutation_split_filter {A} (p : A -> bool) (l : list A) :
  Permutation l (filter p l ++ filter (fun x => negb (p x)) l).
Proof.
  induction l as [|x l IH]; simpl; [constructor|].
  destruct (p x); simpl.
  - apply perm_skip. exact IH.
  - apply Permutation_cons_app. exact IH.
Qed.

Lemma NoDup_list_prod {A B} (l : list A) (l' : list B) :
  NoDup l -> NoDup l' -> NoDup (list_prod l l').
Proof.
  intros ND ND'. induction ND as [|a l Hnot ND IH]; simpl; [constructor|].
  apply NoDup_app.
  - clear -ND'. induction ND' as [|b l' Hb ND' IH']; simpl; constructor; [|exact IH'].
    intro H. apply in_map_iff in H. destruct H as [b' [E Hin]].
    inversion E; subst. contradiction.
  - exact IH.
  - intros [x y] H1 H2. apply in_map_iff in H1. destruct H1 as [b [E _]].
    inversion E; subst. apply in_prod_iff in H2. tauto.
Qed.

Section GrandTotal.
Variable cell : Type.
Variable zero : cell.
Variable add : cell -> cell -> cell.
Hypothesis add_assoc : forall a b c, add (add a b) c = add a (add b c).
Hypothesis add_comm : forall a b, add a b = add b a.
Hypothesis add_zero_l : forall a, add zero a = a.

Local Abbreviation pivot := (pivot_table zero add).
Local Abbreviation total := (sum_gross zero add).

Lemma fold_left_add_start (l : list cell) (a : cell) :
  fold_left add l a = add a (fold_left add l zero).
Proof.
  revert a. induction l as [|x l IH]; intro a; simpl.
  - rewrite add_comm. symmetry. apply add_zero_l.
  - rewrite (IH (add a x)), (IH (add zero x)), add_zero_l. apply add_assoc.
Qed.

Lemma sum_gross_as_fold (l : list (MovieGenreRecord cell)) :
  total l = fold_left add (map gross l) zero.
Proof.
  unfold sum_gross. generalize zero. induction l as [|r l IH]; intro a; simpl;
    [reflexivity | apply IH].
Qed.

Lemma sum_gross_app (l1 l2 : list (MovieGenreRecord cell)) :
  total (l1 ++ l2) = add (total l1) (total l2).
Proof.
  rewrite !sum_gross_as_fold, map_app, fold_left_app. apply fold_left_add_start.
Qed.

Lemma sum_gross_perm (l l' : list (MovieGenreRecord cell)) :
  Permutation l l' -> total l = total l'.
Proof.
  intro P. unfold sum_gross. apply fold_left_Permutation; [|exact P].
  intros a x y. rewrite !add_assoc. f_equal. apply add_comm.
Qed.

(** The totals of the groups of a list of distinct keys that covers the
    records add up to the total of the records. *)
Lemma groups_add_up (keys : list (Z * string)) :
  NoDup keys ->
  forall D : list (MovieGenreRecord cell),
    (forall r, In r D -> In (key_of r) keys) ->
    fold_left add (map (fun k => total (group_rows k D)) keys) zero = total D.
Proof.
  induction 1 as [|k ks Hnot ND IH]; intros D Hcover.
  - destruct D as [|r D]; [reflexivity|]. exfalso. apply (Hcover r). left. reflexivity.
  - simpl. rewrite fold_left_add_start, add_zero_l.
    set (rest := filter (fun r => negb (eqb_of_cmp (key_of r) k)) D).
    assert (Hrest : map (fun k' => total (group_rows k' D)) ks
                    = map (fun k' => total (group_rows k' rest)) ks).
    { apply map_ext_in. intros k' Hk'. f_equal. unfold group_rows, rest.
      rewrite filter_filter. apply filter_ext. intro r.
      destruct (eqb_of_cmp (key_of r) k') eqn:E1; [|reflexivity].
      apply eqb_of_cmp_true in E1.
      destruct (eqb_of_cmp (key_of r) k) eqn:E2; [|reflexivity].
      apply eqb_of_cmp_true in E2. exfalso. apply Hnot. congruence. }
    rewrite Hrest, (IH rest).
    + rewrite <- sum_gross_app. symmetry. apply sum_gross_perm.
      apply (Permutation_split_filter (fun r => eqb_of_cmp (key_of r) k)).
    + intros r Hr. unfold rest in Hr. apply filter_In in Hr. destruct Hr as [Hin Hk].
      destruct (Hcover r Hin) as [E|Hks]; [|exact Hks].
      exfalso. rewrite E in Hk.
      rewrite (proj2 (eqb_of_cmp_true (key_of r) (key_of r)) eq_refl) in Hk.
      discriminate.
Qed.

Lemma cells_of_grid (T : Z * string -> cell) (idx : list Z) (cols : list string) :
  flat_map snd (map (fun y => (y, map (fun g => T (y, g)) cols)) idx)
  = map T (list_prod idx cols).
Proof.
  induction idx as [|y idx IH]; simpl; [reflexivity|].
  rewrite IH, map_app, map_map. reflexivity.
Qed.

(** X17.  When the addition of the gross column is associative and
    commutative with zero as its unit (as for integer amounts), the
    cells of the reshaped matrix add up to the total gross of the
    records that pass the filter: the pivot neither loses a record nor
    counts one twice, and the zero fill adds nothing. *)
Theorem grand_total_is_preserved
    (df : list (MovieGenreRecord cell)) (genres : list string) (years : Z * Z) :
  frame_total zero add (df_reshaped zero add df genres years)
  = total (df_filtered df genres years).
Proof.
  unfold frame_total, df_reshaped.
  set (D := df_filtered df genres years).
  rewrite (fold_left_Permutation add
             (flat_map snd (rows (sort_rows_desc (pivot D))))
             (flat_map snd (rows (pivot D)))).
  - rewrite (pivot_table_cells cell zero add D) at 1. cbn [rows].
    rewrite (cells_of_grid (fun k => total (group_rows k D))).
    apply groups_add_up.
    + apply NoDup_list_prod.
      * apply NoDup_index_pivot_table.
      * unfold pivot_table. cbn [columns]. apply sorted_unique_NoDup.
    + intros r Hr. apply in_prod_iff. split.
      * apply In_index_pivot_table. apply in_map. exact Hr.
      * apply In_columns_pivot_table. apply in_map. exact Hr.
  - intros a x y. rewrite !add_assoc. f_equal. apply add_comm.
  - apply Permutation_flat_map. apply Permutation_sym.
    apply sort_rows_desc_Permutation.
Qed.
End GrandTotal.

(** X17 on the dataset with three years: the cells 50, 101, 3, 0, 0 and
    7 add up to 161, the total of the five records within the range. *)
Lemma grand_total_example :
  frame_total 0 Z.add (df_reshaped 0 Z.add mixed_df ["Drama"; "Comedy"; "Horror"] (2000, 2010))
  = 161.
Proof.
  rewrite (grand_total_is_preserved Z 0 Z.add
             (fun a b c => eq_sym (Z.add_assoc a b c)) Z.add_comm Z.add_0_l).
  reflexivity.
Defined.

(* ================================================================== *)
(** ** The failures that the guard handles *)

Section HandledFailures.
Variable F : Type.
Variable float_of_int : Z -> option F.
Variable float_of_str : string -> option F.

Local Abbreviation body := (load_usd_to_eur_rate_body float_of_int float_of_str).
Local Abbreviation guarded := (guarded_fetch float_of_int float_of_str).


End HandledFailures.

(* ================================================================== *)
(** * The cells of the matrix the script builds *)

Section CellClaims.
Variable cell : Type.
Variable zero : cell.
Variable add : cell -> cell -> cell.
Variables rate conv : Type.
Variable mul : cell -> rate -> conv.

Local Abbreviation total := (sum_gross zero add).

Lemma matching_restricted (df : list (MovieGenreRecord cell)) (genres : list string)
    (years : Z * Z) (y : Z) (g : string) :
  restricted_to (fun r => genre r = g /\ In (genre r) genres /\
                          year r = y /\ fst years <= year r <= snd years)
    df (matching df genres years y g).
Proof.
  unfold matching. apply restricted_to_filter. intro r.
  rewrite !andb_true_iff, String.eqb_eq, isin_In, Z.eqb_eq, between_spec. tauto.
Qed.

(** C1.  When lines 55-60 complete with the matrix [m], every cell of
    [m], at a row year [y] and a column genre [g], has a selected genre
    and a year within the inclusive range, and holds the sum of [gross]
    over the records of the dataset whose genre is [g] and is selected
    and whose year is [y] and lies within the range, multiplied by the
    exchange rate. *)
Theorem converted_cell_is_sum_times_rate
    (df : list (MovieGenreRecord cell)) (genres : list string) (years : Z * Z)
    (usd_to_eur_rate : rate) (m : DataFrame conv) (y : Z) (g : string) :
  df_reshaped_eur_result zero add mul df genres years usd_to_eur_rate = Ok m ->
  In y (index m) -> In g (columns m) ->
  In g genres /\ fst years <= y <= snd years /\
  exists l,
    restricted_to (fun r => genre r = g /\ In (genre r) genres /\
                            year r = y /\ fst years <= year r <= snd years) df l /\
    frame_at m y g = Some (mul (total l) usd_to_eur_rate).
Proof.
  intros Hm Hy Hg. apply df_reshaped_eur_result_Ok_iff in Hm. destruct Hm as [_ ->].
  unfold df_reshaped_eur in *. rewrite index_frame_mul in Hy.
  change (In g (columns (df_reshaped zero add df genres years))) in Hg.
  pose proof (proj1 (In_columns_df_reshaped _ zero add _ _ _ _) Hg) as [Hsel _].
  pose proof (proj1 (In_index_df_reshaped _ zero add _ _ _ _) Hy)
    as [r [_ [Ey [_ Hry]]]].
  split; [exact Hsel|]. split; [rewrite <- Ey; exact Hry|].
  exists (matching df genres years y g). split; [apply matching_restricted|].
  rewrite frame_at_frame_mul, (frame_at_df_reshaped _ _ _ _ _ _ _ _ Hy Hg).
  reflexivity.
Qed.


End CellClaims.

(** C1 on the scenario of the specification: lines 55-60 complete, and
    the cell of 2005 and Drama is selected, within 2000-2010, the sum
    over the one matching record, 100, times 0.90: 90. *)
Lemma converted_cell_scenario :
  df_reshaped_eur_result 0 Z.add eur_of scenario_df scenario_genres scenario_years
    scenario_rate = Ok scenario_converted /\
  In "Drama" scenario_genres /\ 2000 <= 2005 <= 2010 /\
  exists l,
    restricted_to (fun r => genre r = "Drama" /\ In (genre r) scenario_genres /\
                            year r = 2005 /\ 2000 <= year r <= 2010) scenario_df l /\
    sum_gross 0 Z.add l = 100 /\
    frame_at scenario_converted 2005 "Drama"
      = Some (eur_of (sum_gross 0 Z.add l) scenario_rate) /\
    frame_at scenario_converted 2005 "Drama" = Some (Qmake 90 1).
Proof.
  assert (H : df_reshaped_eur_result 0 Z.add eur_of scenario_df scenario_genres
                scenario_years scenario_rate = Ok scenario_converted) by reflexivity.
  split; [exact H|].
  destruct (converted_cell_is_sum_times_rate Z 0 Z.add Q Q eur_of scenario_df
              scenario_genres scenario_years scenario_rate scenario_converted 2005 "Drama" H)
    as [Hg [Hy [l [R C]]]].
  - left. reflexivity.
  - right. left. reflexivity.
  - split; [exact Hg|]. split; [exact Hy|]. exists l. split; [exact R|].
    assert (E : l = matching scenario_df scenario_genres scenario_years 2005 "Drama").
    { eapply restricted_to_unique;
        [exact R | apply (matching_restricted Z 0 Z.add Q Q eur_of)]. }
    split; [rewrite E; reflexivity|]. split; [exact C | reflexivity].
Defined.

(** C3 as the specification words it fails, on the first render of a
    dataset that offers the six default genres: Comedy is offered and
    selected, its only record lies before the default range, line 59
    completes, and the reshaped matrix has no column Comedy. *)
Lemma selected_genre_without_records_has_no_column :
  unique (map genre first_render_df) = default_genres /\
  In "Comedy" default_genres /\
  df_reshaped_result 0 Z.add first_render_df default_genres default_years
    = Ok (df_reshaped 0 Z.add first_render_df default_genres default_years) /\
  columns (df_reshaped 0 Z.add first_render_df default_genres default_years)
    = ["Action"; "Adventure"; "Biography"; "Drama"; "Horror"] /\
  ~ In "Comedy" (columns (df_reshaped 0 Z.add first_render_df default_genres
                            default_years)).
Proof.
  split; [reflexivity|]. split; [simpl; tauto|]. split; [reflexivity|].
  split; [reflexivity|].
  vm_compute. intros [E|[E|[E|[E|[E|[]]]]]]; discriminate.
Qed.


